(** * claude-dashboard: the session-log pipeline of [backend/server.js]

    A shallow embedding of the record decoder ([parseJsonlFile]), the session
    aggregator ([extractSessionInfo]), the content formatter
    ([formatEntryContent]), the directory scanner ([getAllSessions],
    [getSessionDetails]) and the token sums of the [/api/stats] handler,
    followed by the properties the specification states about them.

    Conventions of the embedding.
    - A JavaScript value is a [value]; numbers are the integers ([Num]) plus
      [NaN]; fractional numbers, infinities and integers beyond 2^53 are
      outside the model.
    - A string is a sequence of UTF-16 code units, one [ascii] per unit, so
      only units below 256 are represented; the emoji of the display labels
      are written as their literal bytes, and no length is ever taken of a
      label.
    - An object is its own enumerable properties, in enumeration order.  The
      program reads only properties ([type], [usage], [message], ...) that no
      built-in prototype defines, so a lookup that misses yields [Undef].
    - Arrays and objects produced by [JSON.parse] are fresh: two of them at
      different places of the decoded data are never the same reference.
    - A raised exception is [Throw]: a [TypeError] of the program itself (a
      property read on [null] or [undefined], a call of a missing method) or
      an error of a file-system call. *)

From Stdlib Require Import ZArith List Bool Lia.
From Stdlib Require Import Strings.Ascii Strings.String Numbers.DecimalString.
Import ListNotations.

Local Open Scope string_scope.
Local Open Scope Z_scope.

(** ** Values *)

#[local] Set Warnings "-register-all".

Inductive value : Type :=
| Undef
| Null
| NaN
| Bool (b : bool)
| Num (n : Z)
| Str (s : string)
| Arr (items : list value)
| Obj (fields : list (string * value)).

(** ** Completions: a result or a raised exception *)

Inductive completion (A : Type) : Type :=
| Normal (a : A)
| Throw.

Arguments Normal {A} a.
Arguments Throw {A}.

Definition bind {A B : Type} (c : completion A) (k : A -> completion B)
  : completion B :=
  match c with
  | Normal a => k a
  | Throw => Throw
  end.

Notation "x <- c ;; k" := (bind c (fun x => k))
  (at level 61, c at next level, right associativity).

(** ** Strings *)

Definition nl : string := String (ascii_of_nat 10) "".
Definition dquote : string := String (ascii_of_nat 34) "".
Definition backslash : string := String (ascii_of_nat 92) "".

(** White space and line terminators removed by [String.prototype.trim],
    among the code units below 256. *)
Definition is_ws (c : ascii) : bool :=
  let n := nat_of_ascii c in
  ((9 <=? n) && (n <=? 13) || (n =? 32) || (n =? 160))%nat.

Fixpoint trimStart (s : string) : string :=
  match s with
  | "" => ""
  | String c s' => if is_ws c then trimStart s' else s
  end.

Fixpoint trimEnd (s : string) : string :=
  match s with
  | "" => ""
  | String c s' =>
      match trimEnd s' with
      | "" => if is_ws c then "" else String c ""
      | t => String c t
      end
  end.

Definition trim (s : string) : string := trimEnd (trimStart s).

(** [s.split('\n')] *)
Fixpoint split_newline (s : string) : list string :=
  match s with
  | "" => [""]
  | String c s' =>
      if Ascii.eqb c (ascii_of_nat 10) then "" :: split_newline s'
      else match split_newline s' with
           | h :: t => String c h :: t
           | [] => [String c ""]
           end
  end.

Fixpoint join (sep : string) (l : list string) : string :=
  match l with
  | [] => ""
  | [s] => s
  | s :: r => s ++ sep ++ join sep r
  end.

(** [s.substring(0, n)] *)
Definition substring0 (n : nat) (s : string) : string := substring 0 n s.

(** [s.replace(pat, rep)] with a string pattern: the first occurrence. *)
Fixpoint replace_first (pat rep s : string) : string :=
  if prefix pat s then rep ++ substring (length pat) (length s) s
  else match s with
       | "" => ""
       | String c s' => String c (replace_first pat rep s')
       end.

(** [s.replace(/-/g, '/')] *)
Fixpoint replace_all_char (a b : ascii) (s : string) : string :=
  match s with
  | "" => ""
  | String c s' =>
      String (if Ascii.eqb c a then b else c) (replace_all_char a b s')
  end.

Definition Z_to_string (n : Z) : string := NilZero.string_of_int (Z.to_int n).

Definition hex_digit (n : nat) : string :=
  substring n 1 "0123456789abcdef".

(** [QuoteJSONString] *)
Definition quote_char (c : ascii) : string :=
  let n := nat_of_ascii c in
  if (n =? 8)%nat then backslash ++ "b"
  else if (n =? 9)%nat then backslash ++ "t"
  else if (n =? 10)%nat then backslash ++ "n"
  else if (n =? 12)%nat then backslash ++ "f"
  else if (n =? 13)%nat then backslash ++ "r"
  else if (n =? 34)%nat then backslash ++ dquote
  else if (n =? 92)%nat then backslash ++ backslash
  else if (n <? 32)%nat
       then backslash ++ "u00" ++ hex_digit (n / 16) ++ hex_digit (n mod 16)
  else String c "".

Fixpoint quote_body (s : string) : string :=
  match s with
  | "" => ""
  | String c s' => quote_char c ++ quote_body s'
  end.

Definition quote (s : string) : string := dquote ++ quote_body s ++ dquote.

(** ** Operators of the language *)

Definition truthy (v : value) : bool :=
  match v with
  | Undef | Null | NaN => false
  | Bool b => b
  | Num n => negb (n =? 0)
  | Str s => negb (s =? "")%string
  | Arr _ | Obj _ => true
  end.

(** [a || b] *)
Definition or_else (a b : value) : value := if truthy a then a else b.

(** [typeof v === 'string']; [Array.isArray(v)] is rendered by a match on
    [Arr]. *)
Definition is_string (v : value) : bool :=
  match v with Str _ => true | _ => false end.

Definition nullish (v : value) : bool :=
  match v with Undef | Null => true | _ => false end.

(** [v === 'lit'] against a string literal *)
Definition is_lit (v : value) (lit : string) : bool :=
  match v with Str s => (s =? lit)%string | _ => false end.

(** SameValueZero, the comparison of [Array.prototype.includes]; arrays and
    objects are compared by reference, and the ones met here are fresh. *)
Definition SameValueZero (a b : value) : bool :=
  match a, b with
  | Undef, Undef | Null, Null | NaN, NaN => true
  | Bool x, Bool y => Bool.eqb x y
  | Num x, Num y => x =? y
  | Str x, Str y => (x =? y)%string
  | _, _ => false
  end.

Fixpoint lookup (k : string) (fields : list (string * value)) : value :=
  match fields with
  | [] => Undef
  | (k', v) :: r => if (k' =? k)%string then v else lookup k r
  end.

(** The value of [v.k] when [v] is neither [null] nor [undefined]. *)
Definition field (v : value) (k : string) : value :=
  match v with
  | Obj fs => lookup k fs
  | _ => Undef
  end.

(** [v.k] *)
Definition prop (v : value) (k : string) : completion value :=
  if nullish v then Throw else Normal (field v k).

(** [v?.k] *)
Definition opt_prop (v : value) (k : string) : completion value :=
  if nullish v then Normal Undef else Normal (field v k).

(** [ToString] *)
Fixpoint ToString (v : value) : string :=
  match v with
  | Undef => "undefined"
  | Null => "null"
  | NaN => "NaN"
  | Bool true => "true"
  | Bool false => "false"
  | Num n => Z_to_string n
  | Str s => s
  | Arr l =>
      join "," (map (fun x => match x with
                              | Undef | Null => ""
                              | _ => ToString x
                              end) l)
  | Obj _ => "[object Object]"
  end.

(** [arr.join(sep)] *)
Definition Array_join (sep : string) (l : list value) : string :=
  join sep (map (fun x => if nullish x then "" else ToString x) l).

(** [a + b] *)
Definition js_add (a b : value) : value :=
  let prim v := match v with Arr _ | Obj _ => Str (ToString v) | _ => v end in
  match prim a, prim b with
  | Str x, y => Str (x ++ ToString y)
  | x, Str y => Str (ToString x ++ y)
  | x, y =>
      let num v := match v with
                   | Null => Some 0
                   | Bool true => Some 1
                   | Bool false => Some 0
                   | Num n => Some n
                   | _ => None
                   end in
      match num x, num y with
      | Some m, Some n => Num (m + n)
      | _, _ => NaN
      end
  end.

(** [JSON.stringify]: [SerializeJSONProperty] with its gap and current
    indentation; [None] is the [undefined] it yields for [undefined]. *)
Fixpoint serialize (gap indent : string) (v : value) : option string :=
  match v with
  | Undef => None
  | Null | NaN => Some "null"
  | Bool true => Some "true"
  | Bool false => Some "false"
  | Num n => Some (Z_to_string n)
  | Str s => Some (quote s)
  | Arr l =>
      let stepback := indent in
      let indent := indent ++ gap in
      let partial :=
        map (fun x => match serialize gap indent x with
                      | Some s => s
                      | None => "null"
                      end) l in
      Some (match partial with
            | [] => "[]"
            | _ =>
                if (gap =? "")%string then "[" ++ join "," partial ++ "]"
                else "[" ++ nl ++ indent
                     ++ join ("," ++ nl ++ indent) partial
                     ++ nl ++ stepback ++ "]"
            end)
  | Obj fs =>
      let stepback := indent in
      let indent := indent ++ gap in
      let partial :=
        flat_map (fun kx => let '(k, x) := kx in
                            match serialize gap indent x with
                            | Some s =>
                                [quote k ++ ":"
                                 ++ (if (gap =? "")%string then "" else " ")
                                 ++ s]
                            | None => []
                            end) fs in
      Some (match partial with
            | [] => "{}"
            | _ =>
                if (gap =? "")%string then "{" ++ join "," partial ++ "}"
                else "{" ++ nl ++ indent
                     ++ join ("," ++ nl ++ indent) partial
                     ++ nl ++ stepback ++ "}"
            end)
  end.

Definition of_option (o : option string) : value :=
  match o with Some s => Str s | None => Undef end.

(** [JSON.stringify(v)] *)
Definition JSON_stringify (v : value) : value := of_option (serialize "" "" v).

(** [JSON.stringify(v, null, 2)] *)
Definition JSON_stringify2 (v : value) : value :=
  of_option (serialize "  " "" v).

(** [s.substring(0, n)] as a method call: a [TypeError] when the receiver is
    not a string (for [undefined], or since other values have no such
    method). *)
Definition call_substring0 (v : value) (n : nat) : completion string :=
  match v with
  | Str s => Normal (substring0 n s)
  | _ => Throw
  end.

(** ** The host: file system, path functions and [JSON.parse]

    The program only reads the file system, so each call is answered by the
    host; [None] stands for a raised exception ([SyntaxError] for
    [JSON_parse], an I/O error for the [fs] functions). *)

Record Stats : Type := {
  isDirectory : bool;
  mtime : Z;     (* milliseconds, as [new Date(mtime)] converts to *)
  size : Z
}.

Record host : Type := {
  CLAUDE_DIR : string;
  path_join : list string -> string;
  existsSync : string -> bool;
  readFileSync : string -> option string;
  readdirSync : string -> option (list string);
  statSync : string -> option Stats;
  JSON_parse : string -> option value
}.

(** ** Record decoder *)

Section Decoder.

Variable H : host.

(** [line => { try { return JSON.parse(line) } catch (e) { return null } }] *)
Definition parse_or_null (line : string) : value :=
  match JSON_parse H line with
  | Some v => v
  | None => Null
  end.

(** [content.trim().split('\n').filter(line => line.trim())] *)
Definition kept_lines (content : string) : list string :=
  filter (fun line => truthy (Str (trim line)))
         (split_newline (trim content)).

Definition parseJsonlFile (filePath : string) : list value :=
  if negb (existsSync H filePath) then []
  else match readFileSync H filePath with
       | None => []
       | Some content =>
           filter truthy (map parse_or_null (kept_lines content))
       end.

(** A line that yields a record: it parses, and to a truthy value. *)
Definition yields_record (line : string) : bool :=
  match JSON_parse H line with
  | Some v => truthy v
  | None => false
  end.

Definition valid_line (line : string) : bool :=
  match JSON_parse H line with
  | Some _ => true
  | None => false
  end.

End Decoder.

(** ** Loops over arrays that may raise *)

Fixpoint mapM {A B : Type} (f : A -> completion B) (l : list A)
  : completion (list B) :=
  match l with
  | [] => Normal []
  | x :: r => y <- f x;; ys <- mapM f r;; Normal (y :: ys)
  end.

Fixpoint filterM {A : Type} (f : A -> completion bool) (l : list A)
  : completion (list A) :=
  match l with
  | [] => Normal []
  | x :: r =>
      b <- f x;; ys <- filterM f r;; Normal (if b then x :: ys else ys)
  end.

(** ** Session aggregator *)

(** The variables of the loop of [extractSessionInfo]. *)
Record loop_state : Type := {
  st_totalInputTokens : value;
  st_totalOutputTokens : value;
  st_messageCount : Z;
  st_toolUses : list value;
  st_firstUserMessage : string;
  st_summary : value;
  st_model : value
}.

Definition initial_state : loop_state := {|
  st_totalInputTokens := Num 0;
  st_totalOutputTokens := Num 0;
  st_messageCount := 0;
  st_toolUses := [];
  st_firstUserMessage := "";
  st_summary := Str "";
  st_model := Str ""
|}.

(** [entry.usage || entry.message?.usage] *)
Definition usage_of (entry : value) : completion value :=
  u <- prop entry "usage";;
  if truthy u then Normal u
  else message <- prop entry "message";; opt_prop message "usage".

(** The body of [if (usage) { ... }]; a truthy [usage] is not nullish, so
    its properties are read without raising. *)
Definition count_tokens (tin tout usage : value) : value * value :=
  if truthy usage then
    let tin := js_add tin (or_else (field usage "input_tokens") (Num 0)) in
    let tout := js_add tout (or_else (field usage "output_tokens") (Num 0)) in
    let tin :=
      js_add tin (or_else (field usage "cache_creation_input_tokens") (Num 0)) in
    let tin :=
      js_add tin (or_else (field usage "cache_read_input_tokens") (Num 0)) in
    (tin, tout)
  else (tin, tout).

Definition count_message (count : Z) (entry : value) : completion Z :=
  t <- prop entry "type";;
  Normal (if is_lit t "user" || is_lit t "assistant" then count + 1
          else count).

(** [content.filter(c => c.type === 'text')] *)
Definition text_blocks (items : list value) : completion (list value) :=
  filterM (fun c => t <- prop c "type";; Normal (is_lit t "text")) items.

(** The value of [msg] for a truthy [entry.message]. *)
Definition user_message_text (message : value) : completion value :=
  if is_string message then Normal message
  else
    content <- prop message "content";;
    if truthy content then
      if is_string content then Normal content
      else match content with
           | Arr items =>
               blocks <- text_blocks items;;
               Normal (Str (Array_join " "
                              (map (fun c => or_else (field c "text") (Str ""))
                                   blocks)))
           | _ => Normal (JSON_stringify content)
           end
    else Normal (JSON_stringify message).

Definition first_user_step (first : string) (entry : value)
  : completion string :=
  t <- prop entry "type";;
  if is_lit t "user" && negb (truthy (Str first)) then
    message <- prop entry "message";;
    if truthy message then
      msg <- user_message_text message;;
      Normal (substring0 200 (ToString msg))
    else Normal first
  else Normal first.

(** The value assigned to [summary] for a truthy [entry.summary]. *)
Definition summary_text (s : value) : value :=
  if is_string s then s
  else if truthy (field s "content") then
         if is_string (field s "content") then field s "content"
         else JSON_stringify (field s "content")
       else JSON_stringify s.

Definition summary_step (summary entry : value) : completion value :=
  t <- prop entry "type";;
  if is_lit t "summary" then
    s <- prop entry "summary";;
    Normal (if truthy s then summary_text s else summary)
  else Normal summary.

(** [if (!toolUses.includes(name)) toolUses.push(name)] *)
Definition push_unique (toolUses : list value) (name : value) : list value :=
  if existsb (fun x => SameValueZero x name) toolUses then toolUses
  else toolUses ++ [name].

(** [for (const block of entry.message.content) { ... }] *)
Fixpoint tool_blocks_loop (toolUses : list value) (blocks : list value)
  : completion (list value) :=
  match blocks with
  | [] => Normal toolUses
  | block :: rest =>
      t <- prop block "type";;
      if is_lit t "tool_use" && truthy (field block "name")
      then tool_blocks_loop (push_unique toolUses (field block "name")) rest
      else tool_blocks_loop toolUses rest
  end.

Definition tool_step (toolUses : list value) (entry : value)
  : completion (list value) :=
  t <- prop entry "type";;
  let toolUses :=
    if is_lit t "tool_use" || truthy (field entry "tool") then
      push_unique toolUses
        (or_else (field entry "tool")
                 (or_else (field entry "name") (Str "unknown")))
    else toolUses in
  if is_lit t "assistant" then
    message <- prop entry "message";;
    content <- opt_prop message "content";;
    match content with
    | Arr blocks => tool_blocks_loop toolUses blocks
    | _ => Normal toolUses
    end
  else Normal toolUses.

Definition model_step (model entry : value) : completion value :=
  if truthy model then Normal model
  else
    m <- prop entry "model";;
    if truthy m then Normal m
    else
      message <- prop entry "message";;
      mm <- opt_prop message "model";;
      Normal (or_else mm (Str "")).

(** One iteration of [for (const entry of entries)]. *)
Definition session_step (st : loop_state) (entry : value)
  : completion loop_state :=
  usage <- usage_of entry;;
  let '(tin, tout) :=
    count_tokens (st_totalInputTokens st) (st_totalOutputTokens st) usage in
  count <- count_message (st_messageCount st) entry;;
  first <- first_user_step (st_firstUserMessage st) entry;;
  summary <- summary_step (st_summary st) entry;;
  tools <- tool_step (st_toolUses st) entry;;
  model <- model_step (st_model st) entry;;
  Normal {| st_totalInputTokens := tin;
            st_totalOutputTokens := tout;
            st_messageCount := count;
            st_toolUses := tools;
            st_firstUserMessage := first;
            st_summary := summary;
            st_model := model |}.

Fixpoint session_loop (st : loop_state) (entries : list value)
  : completion loop_state :=
  match entries with
  | [] => Normal st
  | entry :: rest => st' <- session_step st entry;; session_loop st' rest
  end.

Definition decodeProjectName (encoded : string) : string :=
  replace_all_char "-"%char "/"%char encoded.

Record SessionInfo : Type := {
  id : string;
  project : string;
  projectRaw : string;
  summary : value;
  messageCount : Z;
  totalInputTokens : value;
  totalOutputTokens : value;
  totalTokens : value;
  toolUses : list value;
  model : value;
  entryCount : Z;
  (* attached by the callers *)
  filePath : option string;
  lastModified : option Z;
  fileSize : option Z
}.

Definition extractSessionInfo (entries : list value) (project filename : string)
  : completion SessionInfo :=
  st <- session_loop initial_state entries;;
  Normal {|
    id := replace_first ".jsonl" "" filename;
    project := decodeProjectName project;
    projectRaw := project;
    summary := or_else (st_summary st)
                 (or_else (Str (st_firstUserMessage st)) (Str "No summary"));
    messageCount := st_messageCount st;
    totalInputTokens := st_totalInputTokens st;
    totalOutputTokens := st_totalOutputTokens st;
    totalTokens := js_add (st_totalInputTokens st) (st_totalOutputTokens st);
    toolUses := st_toolUses st;
    model := st_model st;
    entryCount := Z.of_nat (List.length entries);
    filePath := None;
    lastModified := None;
    fileSize := None
  |}.

(** ** Content formatter *)

Definition label_thinking : string := "💭 Thinking:".
Definition label_tool : string := "🔧 Tool: ".
Definition label_result : string := "📤 Result: ".
Definition label_summary : string := "📝 Summary: ".
Definition label_other : string := "ℹ️ ".

(** The callback shared by [extractToolResultContent] and the text
    extraction: the two [if]s before its last [return]; [None] when neither
    applies. *)
Definition text_or_string (c : value) : completion (option value) :=
  t <- prop c "type";;
  if is_lit t "text" && truthy (field c "text")
  then Normal (Some (field c "text"))
  else if is_string c then Normal (Some c)
  else Normal None.

Definition extractToolResultContent (content : value) : completion value :=
  if is_string content then Normal content
  else match content with
       | Arr items =>
           parts <- mapM (fun c =>
                            r <- text_or_string c;;
                            Normal (match r with
                                    | Some v => v
                                    | None => JSON_stringify c
                                    end)) items;;
           Normal (Str (Array_join nl parts))
       | _ => Normal (JSON_stringify content)
       end.

(** [items.map(c => ... return null).filter(Boolean)], and the join when the
    result is not empty; [None] when the code falls through. *)
Definition joined_texts (items : list value) : completion (option value) :=
  texts <- mapM (fun c =>
                   r <- text_or_string c;;
                   Normal (match r with Some v => v | None => Null end))
                items;;
  match filter truthy texts with
  | [] => Normal None
  | texts => Normal (Some (Str (Array_join nl texts)))
  end.

(** [if (entry.content) { ... }] of the user branch; [None] when the code
    falls through. *)
Definition direct_user_content (content : value) : completion (option value) :=
  if truthy content then
    if is_string content then Normal (Some content)
    else match content with
         | Arr items => joined_texts items
         | _ => Normal None
         end
  else Normal None.

(** [if (entry.message?.content) { ... }] of the user branch. *)
Definition user_message_content (content : value)
  : completion (option value) :=
  if truthy content then
    if is_string content then Normal (Some content)
    else match content with
         | Arr items =>
             toolResults <-
               filterM (fun c => t <- prop c "type";;
                                 Normal (is_lit t "tool_result")) items;;
             match toolResults with
             | [] => joined_texts items
             | _ =>
                 results <-
                   mapM (fun tr =>
                           c <- extractToolResultContent (field tr "content");;
                           Normal (Obj [("tool_use_id", field tr "tool_use_id");
                                        ("content", c)])) toolResults;;
                 Normal (Some (Obj [("type", Str "tool_results");
                                    ("results", Arr results)]))
             end
         | _ => Normal None
         end
  else Normal None.

Definition format_user (entry : value) : completion value :=
  message <- prop entry "message";;
  if is_string message then Normal message
  else
    mc <- opt_prop message "content";;
    r <- user_message_content mc;;
    match r with
    | Some v => Normal v
    | None =>
        r <- direct_user_content (field entry "content");;
        match r with
        | Some v => Normal v
        | None =>
            if truthy message then Normal (JSON_stringify2 message)
            else Normal (JSON_stringify2 entry)
        end
    end.

(** [for (const block of entry.message.content) { ... parts.push(...) }] *)
Fixpoint assistant_parts (parts : list value) (blocks : list value)
  : completion (list value) :=
  match blocks with
  | [] => Normal parts
  | block :: rest =>
      t <- prop block "type";;
      if is_lit t "text" && truthy (field block "text") then
        assistant_parts (parts ++ [field block "text"]) rest
      else if is_lit t "thinking" && truthy (field block "thinking") then
        excerpt <- call_substring0 (field block "thinking") 500;;
        assistant_parts
          (parts ++ [Str (label_thinking ++ nl ++ excerpt ++ "...")]) rest
      else if is_lit t "tool_use" then
        input <- call_substring0 (JSON_stringify2 (field block "input")) 300;;
        assistant_parts
          (parts ++ [Str (label_tool ++ ToString (field block "name") ++ nl
                          ++ "Input: " ++ input)]) rest
      else assistant_parts parts rest
  end.

Definition format_assistant (entry : value) : completion value :=
  message <- prop entry "message";;
  if is_string message then Normal message
  else
    mc <- opt_prop message "content";;
    r <- (if truthy mc then
            if is_string mc then Normal (Some mc)
            else match mc with
                 | Arr blocks =>
                     parts <- assistant_parts [] blocks;;
                     Normal (Some (or_else (Str (Array_join (nl ++ nl) parts))
                                           (Str "[Processing...]")))
                 | _ => Normal None
                 end
          else Normal None);;
    match r with
    | Some v => Normal v
    | None =>
        let content := field entry "content" in
        r <- (if truthy content then
                if is_string content then Normal (Some content)
                else match content with
                     | Arr items =>
                         blocks <- text_blocks items;;
                         let texts :=
                           map (fun c => or_else (field c "text") (Str ""))
                               blocks in
                         Normal (Some (or_else (Str (Array_join nl texts))
                                               (Str "[Response]")))
                     | _ => Normal None
                     end
              else Normal None);;
        match r with
        | Some v => Normal v
        | None =>
            Normal (if truthy message then JSON_stringify2 message
                    else Str "[Empty response]")
        end
    end.

Definition formatEntryContent (entry : value) : completion value :=
  t <- prop entry "type";;
  if is_lit t "user" then format_user entry
  else if is_lit t "assistant" then format_assistant entry
  else if is_lit t "tool_use" then
    let toolName :=
      or_else (field entry "name")
              (or_else (field entry "tool") (Str "unknown")) in
    let input :=
      or_else (field entry "input")
              (or_else (field entry "arguments") (Obj [])) in
    text <- call_substring0 (JSON_stringify2 input) 500;;
    Normal (Str (label_tool ++ ToString toolName ++ nl ++ "Input: " ++ text))
  else if is_lit t "tool_result" then
    let result :=
      or_else (field entry "result")
              (or_else (field entry "output")
                       (or_else (field entry "content") (Str ""))) in
    let resultStr := if is_string result then result
                     else JSON_stringify result in
    match resultStr with
    | Str str =>
        Normal (Str (label_result ++ substring0 500 str
                     ++ (if (500 <? length str)%nat then "..." else "")))
    | _ => Throw
    end
  else if is_lit t "summary" then
    Normal (Str (label_summary
                 ++ ToString (or_else (field entry "summary") (Str ""))))
  else
    let typeLabel := or_else t (Str "unknown") in
    text <- call_substring0 (JSON_stringify2 entry) 300;;
    Normal (Str (label_other ++ ToString typeLabel ++ ": " ++ text)).

(** ** Directory scanner and query gateway *)

Definition of_host {A : Type} (o : option A) : completion A :=
  match o with
  | Some a => Normal a
  | None => Throw
  end.

(** [s.endsWith(suffix)] *)
Definition endsWith (s suffix : string) : bool :=
  ((length suffix <=? length s)%nat
   && (substring (length s - length suffix) (length suffix) s =? suffix)%string).

Definition mtime_of (s : SessionInfo) : Z :=
  match lastModified s with
  | Some t => t
  | None => 0
  end.

(** [sessions.sort((a, b) => new Date(b.lastModified) - new Date(a.lastModified))]:
    a stable sort, latest first. *)
Fixpoint insert_by_mtime (x : SessionInfo) (l : list SessionInfo)
  : list SessionInfo :=
  match l with
  | [] => [x]
  | y :: r =>
      if mtime_of x <? mtime_of y then y :: insert_by_mtime x r
      else x :: l
  end.

Fixpoint sort_by_mtime (l : list SessionInfo) : list SessionInfo :=
  match l with
  | [] => []
  | x :: r => insert_by_mtime x (sort_by_mtime r)
  end.

Record PresentableEntry : Type := {
  pe_index : Z;
  pe_type : value;
  pe_timestamp : value;
  pe_content : value;
  pe_raw : value
}.

Record SessionDetail : Type := {
  sd_sessionId : string;
  sd_project : string;
  sd_messages : list PresentableEntry;
  sd_stats : SessionInfo
}.

Section Scanner.

Variable H : host.

(** The assignments to [sessionInfo] after [extractSessionInfo]. *)
Definition attach (info : SessionInfo) (path : string) (stats : Stats)
  : SessionInfo := {|
  id := id info;
  project := project info;
  projectRaw := projectRaw info;
  summary := summary info;
  messageCount := messageCount info;
  totalInputTokens := totalInputTokens info;
  totalOutputTokens := totalOutputTokens info;
  totalTokens := totalTokens info;
  toolUses := toolUses info;
  model := model info;
  entryCount := entryCount info;
  filePath := Some path;
  lastModified := Some (mtime stats);
  fileSize := Some (size stats)
|}.

(** [for (const file of files) { ... }] *)
Fixpoint scan_files (project projectPath : string) (files : list string)
    (sessions : list SessionInfo) : completion (list SessionInfo) :=
  match files with
  | [] => Normal sessions
  | file :: rest =>
      if negb (endsWith file ".jsonl")
      then scan_files project projectPath rest sessions
      else
        let path := path_join H [projectPath; file] in
        stats <- of_host (statSync H path);;
        let entries := parseJsonlFile H path in
        sessionInfo <- extractSessionInfo entries project file;;
        scan_files project projectPath rest
                   (sessions ++ [attach sessionInfo path stats])
  end.

(** [for (const project of projects) { ... }] *)
Fixpoint scan_projects (projects : list string) (sessions : list SessionInfo)
  : completion (list SessionInfo) :=
  match projects with
  | [] => Normal sessions
  | project :: rest =>
      let projectPath := path_join H [CLAUDE_DIR H; project] in
      st <- of_host (statSync H projectPath);;
      if negb (isDirectory st) then scan_projects rest sessions
      else
        files <- of_host (readdirSync H projectPath);;
        sessions <- scan_files project projectPath files sessions;;
        scan_projects rest sessions
  end.

Definition getAllSessions : completion (list SessionInfo) :=
  if negb (existsSync H (CLAUDE_DIR H)) then Normal []
  else
    projects <- of_host (readdirSync H (CLAUDE_DIR H));;
    sessions <- scan_projects projects [];;
    Normal (sort_by_mtime sessions).

(** [entries.map((entry, index) => ({ ... }))] *)
Fixpoint format_entries (index : Z) (entries : list value)
  : completion (list PresentableEntry) :=
  match entries with
  | [] => Normal []
  | entry :: rest =>
      t <- prop entry "type";;
      content <- formatEntryContent entry;;
      let message := {|
        pe_index := index;
        pe_type := or_else t (Str "unknown");
        pe_timestamp := or_else (field entry "timestamp") (field entry "ts");
        pe_content := content;
        pe_raw := entry
      |} in
      messages <- format_entries (index + 1) rest;;
      Normal (message :: messages)
  end.

(** The result is [None] for the [null] of a missing file. *)
Definition getSessionDetails (projectRaw sessionId : string)
  : completion (option SessionDetail) :=
  let path :=
    path_join H [CLAUDE_DIR H; projectRaw; sessionId ++ ".jsonl"] in
  if negb (existsSync H path) then Normal None
  else
    let entries := parseJsonlFile H path in
    messages <- format_entries 0 entries;;
    stats <- extractSessionInfo entries projectRaw (sessionId ++ ".jsonl");;
    Normal (Some {| sd_sessionId := sessionId;
                    sd_project := decodeProjectName projectRaw;
                    sd_messages := messages;
                    sd_stats := stats |}).

End Scanner.




(** ** An in-memory host for the examples

    A disk is a table of paths; [JSON.parse] is given on the serializations
    of a list of sample values, which it maps back to the value serialized,
    and raises on any other text the examples use. *)

Inductive node : Type :=
| File (content : string) (modified : Z)
| Dir (entries : list string).

Fixpoint find_node (path : string) (disk : list (string * node))
  : option node :=
  match disk with
  | [] => None
  | (p, n) :: r => if (p =? path)%string then Some n else find_node path r
  end.

Definition line_of (v : value) : string := ToString (JSON_stringify v).

Definition host_of (root : string) (disk : list (string * node))
    (samples : list value) : host := {|
  CLAUDE_DIR := root;
  path_join := join "/";
  existsSync := fun path =>
    match find_node path disk with Some _ => true | None => false end;
  readFileSync := fun path =>
    match find_node path disk with
    | Some (File content _) => Some content
    | _ => None
    end;
  readdirSync := fun path =>
    match find_node path disk with
    | Some (Dir entries) => Some entries
    | _ => None
    end;
  statSync := fun path =>
    match find_node path disk with
    | Some (File content modified) =>
        Some {| isDirectory := false; mtime := modified;
                size := Z.of_nat (length content) |}
    | Some (Dir _) =>
        Some {| isDirectory := true; mtime := 0; size := 0 |}
    | None => None
    end;
  JSON_parse := fun text =>
    find (fun v => (line_of v =? text)%string) samples
|}.

Definition user_hello : value :=
  Obj [("type", Str "user");
       ("message", Obj [("role", Str "user"); ("content", Str "hello")])].

Definition summary_S : value :=
  Obj [("type", Str "summary"); ("summary", Str "S")].

Definition usage_record (input output : value) : value :=
  Obj [("type", Str "assistant");
       ("usage", Obj [("input_tokens", input); ("output_tokens", output)])].

Definition sample_values : list value :=
  [Null; Obj []; user_hello; summary_S;
   usage_record (Str "a") (Num 0); usage_record (Num 1) (Num 2)].

(** One project with two session logs; [b.jsonl] also holds the valid line
    [null], a corrupt line and a blank line. *)
Definition demo_disk : list (string * node) :=
  [("/logs", Dir ["-home-u-p"; "notes.txt"]);
   ("/logs/notes.txt", File "todo" 5);
   ("/logs/-home-u-p", Dir ["a.jsonl"; "b.jsonl"; "readme.md"]);
   ("/logs/-home-u-p/readme.md", File "x" 7);
   ("/logs/-home-u-p/a.jsonl",
    File (line_of (usage_record (Str "a") (Num 0)) ++ nl) 20);
   ("/logs/-home-u-p/b.jsonl",
    File (line_of (usage_record (Num 1) (Num 2)) ++ nl
          ++ "null" ++ nl
          ++ "{oops" ++ nl
          ++ nl
          ++ line_of user_hello ++ nl) 10)].

Definition demo_host : host := host_of "/logs" demo_disk sample_values.
Definition missing_root_host : host := host_of "/logs" [] sample_values.
Definition empty_root_host : host :=
  host_of "/logs" [("/logs", Dir [])] sample_values.




(** A record that carries a usage mapping at both places. *)
Definition both_usages : value :=
  Obj [("type", Str "assistant");
       ("usage", Obj [("input_tokens", Num 1); ("output_tokens", Num 2);
                      ("cache_creation_input_tokens", Num 3);
                      ("cache_read_input_tokens", Num 4)]);
       ("message", Obj [("usage", Obj [("input_tokens", Num 100);
                                       ("output_tokens", Num 200)])])].

(** ** Vocabulary of the properties *)

(** Lines of a text: no line holds a newline, the first starts and the
    last ends with a character that is not white space. *)
Fixpoint has_newline (s : string) : bool :=
  match s with
  | "" => false
  | String c s' => Ascii.eqb c (ascii_of_nat 10) || has_newline s'
  end.

Definition starts_clean (s : string) : bool :=
  match s with
  | String c _ => negb (is_ws c)
  | "" => false
  end.

Definition ends_clean (s : string) : bool :=
  negb (s =? "")%string && (trimEnd s =? s)%string.

Definition text_lines (ls : list string) : Prop :=
  Forall (fun l => has_newline l = false) ls
  /\ starts_clean (hd "" ls) = true
  /\ ends_clean (last ls "") = true.

(** The usage mapping an entry is counted with. *)
Definition chosen_usage (entry : value) : value :=
  if truthy (field entry "usage") then field entry "usage"
  else field (field entry "message") "usage".







(** A record of type summary whose [summary] field is truthy. *)
Definition is_summary_record (entry : value) : bool :=
  is_lit (field entry "type") "summary" && truthy (field entry "summary").

Definition is_text_block (c : value) : bool := is_lit (field c "type") "text".

(** The fallback text of a user record, after the words of the
    specification: a string message or string content as it is, array
    content as its text-typed blocks joined by one space, any other shape
    stringified. *)
Definition fallback_text_spec (message : value) : string :=
  match message with
  | Str s => s
  | _ =>
      let content := field message "content" in
      if truthy content then
        match content with
        | Str c => c
        | Arr items =>
            join " " (map (fun c => ToString (or_else (field c "text") (Str "")))
                          (filter is_text_block items))
        | _ => ToString (JSON_stringify content)
        end
      else ToString (JSON_stringify message)
  end.

Definition user_blank : value :=
  Obj [("type", Str "user"); ("message", Obj [("content", Arr [])])].

Definition user_hi : value :=
  Obj [("type", Str "user"); ("message", Str "hi")].

(** The names a record contributes to the tool list, in the order the loop
    meets them: its own name, for a record of type tool_use or with a
    truthy [tool] field, then the names of the tool_use blocks of an
    assistant record with array content. *)
Definition is_tool_block (block : value) : bool :=
  is_lit (field block "type") "tool_use" && truthy (field block "name").

Definition own_tool_name (entry : value) : list value :=
  if is_lit (field entry "type") "tool_use" || truthy (field entry "tool")
  then [or_else (field entry "tool")
                (or_else (field entry "name") (Str "unknown"))]
  else [].

Definition block_tool_names (entry : value) : list value :=
  if is_lit (field entry "type") "assistant" then
    match field (field entry "message") "content" with
    | Arr blocks => map (fun b => field b "name") (filter is_tool_block blocks)
    | _ => []
    end
  else [].

Definition contributed_names (entry : value) : list value :=
  (own_tool_name entry ++ block_tool_names entry)%list.

(** A value that is not an array or an object. *)
Definition is_primitive (v : value) : bool :=
  match v with
  | Arr _ | Obj _ => false
  | _ => true
  end.

(** A list without its repetitions: every element at its first occurrence
    only, in the order of the list. *)
Fixpoint first_occurrences (l : list value) : list value :=
  match l with
  | [] => []
  | x :: r =>
      x :: filter (fun y => negb (SameValueZero x y)) (first_occurrences r)
  end.

Definition tool_use_record (name : string) : value :=
  Obj [("type", Str "tool_use"); ("name", Str name)].

Definition assistant_tools (names : list string) : value :=
  Obj [("type", Str "assistant");
       ("message",
        Obj [("content",
              Arr (map (fun n => Obj [("type", Str "tool_use");
                                      ("name", Str n)]) names))])].

(** Blocks and records the formatter is tried on. *)
Definition tool_use_without_input : value :=
  Obj [("type", Str "assistant");
       ("message",
        Obj [("content",
              Arr [Obj [("type", Str "tool_use"); ("name", Str "Read")]])])].

Definition user_null_block : value :=
  Obj [("type", Str "user"); ("message", Obj [("content", Arr [Null])])].

Definition thinking_not_string : value :=
  Obj [("type", Str "assistant");
       ("message",
        Obj [("content",
              Arr [Obj [("type", Str "thinking"); ("thinking", Num 1)]])])].

Fixpoint repeat_string (s : string) (n : nat) : string :=
  match n with
  | O => ""
  | S n' => s ++ repeat_string s n'
  end.

Definition tool_result_record (result : string) : value :=
  Obj [("type", Str "tool_result"); ("result", Str result)].

(** A record the aggregator accepts: it is not [null], and when its
    [message.content] is an array no element of it is [null]. *)
Definition blocks_defined (entry : value) : bool :=
  match field (field entry "message") "content" with
  | Arr items => forallb (fun c => negb (nullish c)) items
  | _ => true
  end.

Definition well_formed_record (entry : value) : bool :=
  negb (nullish entry) && blocks_defined entry.

(** * Further vocabulary: scanner, counters, model, watcher *)

From Stdlib Require Import Sorting.Permutation Sorting.Sorted.

(** The session logs of a project directory, as the scanner meets them:
    nothing for a name that is not a directory. *)
Definition project_files (H : host) (project : string)
  : list (string * string) :=
  let projectPath := path_join H [CLAUDE_DIR H; project] in
  match statSync H projectPath with
  | Some st =>
      if isDirectory st then
        match readdirSync H projectPath with
        | Some files =>
            map (pair project) (filter (fun f => endsWith f ".jsonl") files)
        | None => []
        end
      else []
  | None => []
  end.

Definition session_files (H : host) (projects : list string)
  : list (string * string) :=
  flat_map (project_files H) projects.

(** The summary the scanner builds for one log of one project. *)
Definition listed (H : host) (pf : string * string) (s : SessionInfo) : Prop :=
  let path := path_join H [path_join H [CLAUDE_DIR H; fst pf]; snd pf] in
  exists st info,
    statSync H path = Some st
    /\ extractSessionInfo (parseJsonlFile H path) (fst pf) (snd pf)
       = Normal info
    /\ s = attach info path st.

(** A record counted as a message. *)
Definition is_message (entry : value) : bool :=
  is_lit (field entry "type") "user" || is_lit (field entry "type") "assistant".

(** [entry.model || entry.message?.model || ''] *)
Definition model_of (entry : value) : value :=
  or_else (field entry "model")
          (or_else (field (field entry "message") "model") (Str "")).

Fixpoint has_char (a : ascii) (s : string) : bool :=
  match s with
  | "" => false
  | String c s' => Ascii.eqb c a || has_char a s'
  end.





Fixpoint all_ws (s : string) : bool :=
  match s with
  | "" => true
  | String c s' => is_ws c && all_ws s'
  end.

(** The same log before and after two lines were appended to it. *)
Definition log_before : list (string * node) :=
  [("/logs/s.jsonl", File (line_of user_hello ++ nl) 1)].

Definition log_after : list (string * node) :=
  [("/logs/s.jsonl",
    File (line_of user_hello ++ nl ++ "{oops" ++ nl ++ line_of summary_S ++ nl)
         2)].








(** ** Change watcher

    The two handlers of [setupWatcher], each returning the event it
    broadcasts, if any.  The path separator and the current time are
    given by the platform. *)

(** [s.split(sep)] for a separator of one character *)
Fixpoint split_on (sep : ascii) (s : string) : list string :=
  match s with
  | "" => [""]
  | String c s' =>
      if Ascii.eqb c sep then "" :: split_on sep s'
      else match split_on sep s' with
           | h :: t => String c h :: t
           | [] => [String c ""]
           end
  end.

Inductive watcher_event : Type :=
| sessionUpdate (session : SessionInfo) (latestEntry : value)
| refresh.

(** The assignments to [sessionInfo] in the change handler. *)
Definition stamp (info : SessionInfo) (path : string) (now : Z)
  : SessionInfo := {|
  id := id info;
  project := project info;
  projectRaw := projectRaw info;
  summary := summary info;
  messageCount := messageCount info;
  totalInputTokens := totalInputTokens info;
  totalOutputTokens := totalOutputTokens info;
  totalTokens := totalTokens info;
  toolUses := toolUses info;
  model := model info;
  entryCount := entryCount info;
  filePath := Some path;
  lastModified := Some now;
  fileSize := fileSize info
|}.

(** [watcher.on('change', ...)]: the two [parts.pop()] give the last part
    and the one before it; with a single part the project is [undefined]
    and decoding it raises. *)
Definition on_change (H : host) (sep : ascii) (now : Z) (path : string)
  : completion (option watcher_event) :=
  if endsWith path ".jsonl" then
    let parts := split_on sep path in
    let filename := last parts "" in
    let parts := removelast parts in
    let entries := parseJsonlFile H path in
    match parts with
    | [] => Throw
    | _ =>
        let projectRaw := last parts "" in
        sessionInfo <- extractSessionInfo entries projectRaw filename;;
        Normal (Some (sessionUpdate (stamp sessionInfo path now)
                                    (last entries Undef)))
    end
  else Normal None.

(** [watcher.on('add', ...)] *)
Definition on_add (path : string) : option watcher_event :=
  if endsWith path ".jsonl" then Some refresh else None.

(** The summary the scanner lists for [b.jsonl] of the demo disk. *)
Definition demo_session_b : SessionInfo := {|
  id := "b";
  project := "/home/u/p";
  projectRaw := "-home-u-p";
  summary := Str "hello";
  messageCount := 2;
  totalInputTokens := Num 1;
  totalOutputTokens := Num 2;
  totalTokens := Num 3;
  toolUses := [];
  model := Str "";
  entryCount := 2;
  filePath := Some "/logs/-home-u-p/b.jsonl";
  lastModified := Some 10;
  fileSize := Some 138
|}.

(** ** Request helper with retries

    The helper for embedding requests.  One attempt is one exchange with
    the server, given by the platform; the promise of the attempt settles
    it.  The effects of a run are recorded in order: a request, and the
    sleep before the next attempt (its delay, a random fraction, is not
    part of the model). *)

Definition RETRYABLE_STATUS_CODES : list value :=
  [Num 500; Num 502; Num 503; Num 504; Num 530; Num 408; Num 429].

Definition isRetryableError (error statusCode : value) : bool :=
  if truthy error
     && (is_lit (field error "code") "ECONNRESET"
         || is_lit (field error "code") "ETIMEDOUT"
         || is_lit (field error "code") "ENOTFOUND"
         || is_lit (field error "code") "ECONNREFUSED")
  then true
  else if truthy statusCode
          && existsb (fun x => SameValueZero x statusCode)
                     RETRYABLE_STATUS_CODES
  then true
  else false.

Inductive exchange : Type :=
| Response (statusCode : Z) (responseData : string) (headers : value)
| NetworkError (error : value)
| Timeout.

Inductive settlement : Type :=
| Resolved (result : value)
| Rejected (error : value).

(** The promise of one attempt. *)
Definition settle (H : host) (x : exchange) : settlement :=
  match x with
  | Response statusCode responseData headers =>
      if (200 <=? statusCode) && (statusCode <? 300) then
        Resolved (Obj [("statusCode", Num statusCode);
                       ("data", match JSON_parse H responseData with
                                | Some parsed => parsed
                                | None => Str responseData
                                end);
                       ("headers", headers)])
      else
        Rejected (Obj [("statusCode", Num statusCode);
                       ("message",
                        Str ("Request failed with status code "
                             ++ ToString (Num statusCode)));
                       ("response", Str responseData)])
  | NetworkError error => Rejected error
  | Timeout => Rejected (Obj [("message", Str "Request timeout")])
  end.

Inductive effect : Type :=
| Request (attempt : Z)
| Sleep (attempt : Z).

Inductive retry_result : Type :=
| Returned (result : value)
| Failed (message : string).

(** The message of the error raised when the loop is left. *)
Definition failure_message (maxRetries : Z) (lastError lastStatusCode : value)
  : string :=
  "Failed to generate embeddings after " ++ ToString (Num maxRetries)
  ++ " attempts. " ++ "Last error: "
  ++ ToString (or_else (field lastError "message") (Str "Unknown error"))
  ++ " (Status: " ++ ToString (or_else lastStatusCode (Str "N/A")) ++ ")".

(** [for (let attempt = 1; attempt <= maxRetries; attempt++) { ... }],
    from [attempt] on; [left] is the number of iterations the loop
    condition still allows, [maxRetries - attempt + 1]. *)
Fixpoint retry_from (H : host) (exchanges : Z -> exchange) (maxRetries : Z)
    (attempt : Z) (left : nat) (lastError lastStatusCode : value)
  : list effect * retry_result :=
  match left with
  | O => ([], Failed (failure_message maxRetries lastError lastStatusCode))
  | S left' =>
      match settle H (exchanges attempt) with
      | Resolved result => ([Request attempt], Returned result)
      | Rejected error =>
          let lastStatusCode := or_else (field error "statusCode") Null in
          if (attempt <? maxRetries) && isRetryableError error lastStatusCode
          then
            let '(effects, result) :=
              retry_from H exchanges maxRetries (attempt + 1) left'
                         error lastStatusCode in
            (Request attempt :: Sleep attempt :: effects, result)
          else
            ([Request attempt],
             Failed (failure_message maxRetries error lastStatusCode))
      end
  end.

Definition makeRequestWithRetry (H : host) (exchanges : Z -> exchange)
    (maxRetries : Z) : list effect * retry_result :=
  retry_from H exchanges maxRetries 1 (Z.to_nat maxRetries) Null Null.

(** The effects of a run that ends with its [k]-th request, counted from
    [attempt]. *)
Fixpoint effects_upto (attempt : Z) (k : nat) : list effect :=
  match k with
  | O => [Request attempt]
  | S k' => Request attempt :: Sleep attempt :: effects_upto (attempt + 1) k'
  end.

(** A server that answers 503 twice and then the JSON text [{}]. *)
Definition flaky_server (attempt : Z) : exchange :=
  if attempt <? 3 then Response 503 "busy" (Obj [])
  else Response 200 "{}" (Obj []).

(** A project with a sound log and a log whose record holds a [null]
    content block. *)
Definition mixed_disk : list (string * node) :=
  [("/logs", Dir ["-p"]);
   ("/logs/-p", Dir ["good.jsonl"; "bad.jsonl"]);
   ("/logs/-p/good.jsonl", File (line_of user_hello ++ nl) 2);
   ("/logs/-p/bad.jsonl", File (line_of user_null_block ++ nl) 1)].

Definition mixed_host : host :=
  host_of "/logs" mixed_disk [user_hello; user_null_block].
(** * Properties *)

(** ** Completions *)

Lemma bind_Normal {A B : Type} (c : completion A) (k : A -> completion B)
    (b : B) :
  bind c k = Normal b -> exists a, c = Normal a /\ k a = Normal b.
Proof.
  destruct c as [a|]; simpl; [|discriminate].
  intros E. exists a. split; [reflexivity | exact E].
Qed.

Lemma prop_Normal (v : value) (k : string) (x : value) :
  prop v k = Normal x -> nullish v = false /\ x = field v k.
Proof.
  unfold prop. destruct (nullish v); [discriminate|].
  intros E. injection E as <-. split; reflexivity.
Qed.

Lemma truthy_not_nullish (v : value) : truthy v = true -> nullish v = false.
Proof. now destruct v. Qed.

Lemma opt_prop_field (v : value) (k : string) :
  opt_prop v k = Normal (field v k).
Proof. now destruct v. Qed.

(** Splits a hypothesis [x <- c ;; k = Normal b] into its two steps. *)
Tactic Notation "bind_inv" hyp(E) "as" ident(a) ident(Ea) :=
  apply bind_Normal in E; destruct E as (a & Ea & E).

(** ** Record decoder *)

Lemma decode_lines (H : host) (ls : list string) :
  Forall2 (fun line v => JSON_parse H line = Some v)
          (filter (yields_record H) ls)
          (filter truthy (map (parse_or_null H) ls)).
Proof.
  induction ls as [|l ls IH]; simpl; [constructor|].
  assert (E : yields_record H l = truthy (parse_or_null H l)).
  { unfold yields_record, parse_or_null.
    now destruct (JSON_parse H l). }
  rewrite E.
  destruct (truthy (parse_or_null H l)) eqn:T; [|exact IH].
  constructor; [|exact IH].
  unfold parse_or_null in *.
  destruct (JSON_parse H l); [reflexivity | discriminate T].
Qed.

Lemma filter_complement_length {A : Type} (f : A -> bool) (l : list A) :
  (List.length (filter f l) + List.length (filter (fun x => negb (f x)) l)
   = List.length l)%nat.
Proof.
  induction l as [|x l IH]; simpl; [reflexivity|].
  destruct (f x); simpl; lia.
Qed.

Lemma yields_record_valid (H : host) (ls : list string) :
  Forall (fun line => forall v, JSON_parse H line = Some v -> truthy v = true)
         ls ->
  filter (yields_record H) ls = filter (valid_line H) ls.
Proof.
  induction 1 as [|l ls T _ IH]; simpl; [reflexivity|].
  unfold yields_record at 1, valid_line at 1.
  destruct (JSON_parse H l) as [v|]; [|exact IH].
  rewrite (T v eq_refl). now rewrite IH.
Qed.

(** A text written as its lines: [content.trim().split('\n')] gives the
    lines back. *)

Lemma split_newline_line (l : string) :
  has_newline l = false -> split_newline l = [l].
Proof.
  induction l as [|c l IH]; simpl; [reflexivity|].
  intros N. apply orb_false_elim in N as [C N].
  now rewrite C, (IH N).
Qed.

Lemma split_newline_app (l s : string) :
  has_newline l = false ->
  split_newline (l ++ nl ++ s) = l :: split_newline s.
Proof.
  induction l as [|c l IH]; simpl; [reflexivity|].
  intros N. apply orb_false_elim in N as [C N].
  rewrite C. simpl in IH. now rewrite (IH N).
Qed.

Lemma split_newline_join (ls : list string) :
  ls <> [] ->
  Forall (fun l => has_newline l = false) ls ->
  split_newline (join nl ls) = ls.
Proof.
  intros NE F. induction F as [|l ls N F IH]; [contradiction|].
  destruct ls as [|r rest].
  - simpl. now apply split_newline_line.
  - change (join nl (l :: r :: rest)) with (l ++ nl ++ join nl (r :: rest)).
    rewrite (split_newline_app _ _ N). f_equal. apply IH. discriminate.
Qed.

Lemma trimStart_clean (s : string) : starts_clean s = true -> trimStart s = s.
Proof.
  destruct s as [|c s]; simpl; [reflexivity|].
  now destruct (is_ws c).
Qed.

Lemma trimEnd_app (a b : string) :
  trimEnd b = b -> b <> "" -> trimEnd (a ++ b) = a ++ b.
Proof.
  intros T N. induction a as [|c a IH]; simpl; [exact T|].
  rewrite IH. destruct (a ++ b) eqn:E; [|reflexivity].
  destruct a; simpl in E; [contradiction | discriminate].
Qed.

Lemma ends_clean_inv (s : string) :
  ends_clean s = true -> trimEnd s = s /\ s <> "".
Proof.
  unfold ends_clean. intros E. apply andb_prop in E as [N T].
  apply String.eqb_eq in T. split; [exact T|].
  intros ->. discriminate N.
Qed.

Lemma trimEnd_join (ls : list string) :
  ends_clean (last ls "") = true ->
  trimEnd (join nl ls) = join nl ls /\ join nl ls <> "".
Proof.
  induction ls as [|l ls IH]; [discriminate|].
  destruct ls as [|r rest].
  - intros E. now apply ends_clean_inv.
  - intros E. destruct (IH E) as [T N].
    change (join nl (l :: r :: rest)) with (l ++ nl ++ join nl (r :: rest)).
    assert (T' : trimEnd (nl ++ join nl (r :: rest))
                 = nl ++ join nl (r :: rest))
      by now apply trimEnd_app.
    split; [apply trimEnd_app; [exact T' | discriminate]|].
    destruct l; discriminate.
Qed.

Lemma starts_clean_join (ls : list string) :
  starts_clean (hd "" ls) = true -> starts_clean (join nl ls) = true.
Proof.
  destruct ls as [|l [|r rest]]; simpl; try easy.
  now destruct l.
Qed.

Lemma kept_lines_join (ls : list string) :
  text_lines ls ->
  kept_lines (join nl ls) = filter (fun l => truthy (Str (trim l))) ls.
Proof.
  intros (N & S & E). unfold kept_lines, trim at 2.
  rewrite (trimStart_clean _ (starts_clean_join ls S)).
  rewrite (proj1 (trimEnd_join ls E)).
  rewrite split_newline_join; [reflexivity | | exact N].
  intros ->. discriminate S.
Qed.

(** C2, as amended: for a readable file, the decoder returns one record per
    kept line that parses to a truthy value (every object and array is
    one), each the parse of its line, in the order of the lines; the other
    kept lines, corrupt or holding [null], [false], [0] or an empty string,
    contribute nothing.  When every valid line holds a truthy value the
    records are exactly those of the valid lines.  The kept lines of a
    text written as its lines are its lines that are not blank. *)
Theorem parseJsonlFile_records (H : host) (filePath content : string) :
  existsSync H filePath = true ->
  readFileSync H filePath = Some content ->
  let records := parseJsonlFile H filePath in
  let lines := kept_lines content in
  Forall2 (fun line v => JSON_parse H line = Some v)
          (filter (yields_record H) lines) records
  /\ List.length records = List.length (filter (yields_record H) lines)
  /\ (List.length records
      + List.length (filter (fun l => negb (yields_record H l)) lines)
      = List.length lines)%nat
  /\ (Forall (fun line => forall v, JSON_parse H line = Some v ->
                                    truthy v = true) lines ->
      Forall2 (fun line v => JSON_parse H line = Some v)
              (filter (valid_line H) lines) records)
  /\ (forall ls : list string,
        content = join nl ls -> text_lines ls ->
        lines = filter (fun l => truthy (Str (trim l))) ls).
Proof.
  intros Ex Rd records lines.
  assert (R : records
              = filter truthy (map (parse_or_null H) (kept_lines content))).
  { unfold records, parseJsonlFile. now rewrite Ex, Rd. }
  assert (F := decode_lines H lines). fold lines in R. rewrite <- R in F.
  assert (L : List.length records
              = List.length (filter (yields_record H) lines)).
  { symmetry. exact (Forall2_length F). }
  repeat split.
  - exact F.
  - exact L.
  - rewrite L. apply filter_complement_length.
  - intros T. rewrite <- (yields_record_valid H lines T). exact F.
  - intros ls -> T. now apply kept_lines_join.
Qed.

Lemma parseJsonlFile_records_witness :
  Forall2 (fun line v => JSON_parse demo_host line = Some v)
          [line_of (usage_record (Num 1) (Num 2)); line_of user_hello]
          (parseJsonlFile demo_host "/logs/-home-u-p/b.jsonl").
Proof.
  exact (proj1 (parseJsonlFile_records demo_host "/logs/-home-u-p/b.jsonl" _
                  eq_refl eq_refl)).
Defined.

(** C2, as stated, fails: [b.jsonl] of the demo disk has three syntactically
    valid lines among its kept lines, one of them [null], and the decoder
    returns two records. *)
Lemma parseJsonlFile_drops_valid_null :
  exists content,
    readFileSync demo_host "/logs/-home-u-p/b.jsonl" = Some content
    /\ JSON_parse demo_host "null" = Some Null
    /\ List.length (filter (valid_line demo_host) (kept_lines content)) = 3%nat
    /\ List.length (parseJsonlFile demo_host "/logs/-home-u-p/b.jsonl") = 2%nat.
Proof.
  eexists. split; [reflexivity|]. repeat split; vm_compute; reflexivity.
Qed.

(** ** Directory scanner: degraded results *)

(** C8: [getAllSessions] on a missing root and on an empty root directory
    returns the empty list, and [getSessionDetails] for a session whose file
    does not exist returns [null]; none of them raises. *)
Theorem queries_degrade (H : host) :
  (existsSync H (CLAUDE_DIR H) = false -> getAllSessions H = Normal [])
  /\ (existsSync H (CLAUDE_DIR H) = true ->
      readdirSync H (CLAUDE_DIR H) = Some [] ->
      getAllSessions H = Normal [])
  /\ (forall projectRaw sessionId : string,
        existsSync H (path_join H [CLAUDE_DIR H; projectRaw;
                                   sessionId ++ ".jsonl"]) = false ->
        getSessionDetails H projectRaw sessionId = Normal None).
Proof.
  repeat split.
  - intros E. unfold getAllSessions. now rewrite E.
  - intros E R. unfold getAllSessions. now rewrite E, R.
  - intros projectRaw sessionId E. unfold getSessionDetails. now rewrite E.
Qed.

Lemma queries_degrade_witness :
  getAllSessions missing_root_host = Normal []
  /\ getAllSessions empty_root_host = Normal []
  /\ getSessionDetails demo_host "-home-u-p" "nope" = Normal None.
Proof.
  split; [|split].
  - exact (proj1 (queries_degrade missing_root_host) eq_refl).
  - exact (proj1 (proj2 (queries_degrade empty_root_host)) eq_refl eq_refl).
  - exact (proj2 (proj2 (queries_degrade demo_host)) "-home-u-p" "nope"
                 eq_refl).
Defined.

(** ** Session aggregator: the loop, field by field *)

Lemma usage_of_Normal (entry usage : value) :
  usage_of entry = Normal usage ->
  nullish entry = false /\ usage = chosen_usage entry.
Proof.
  unfold usage_of, chosen_usage. intros E. bind_inv E as u Eu.
  apply prop_Normal in Eu as [N ->]. split; [exact N|].
  destruct (truthy (field entry "usage")).
  - now injection E as <-.
  - bind_inv E as m Em. apply prop_Normal in Em as [_ ->].
    rewrite opt_prop_field in E. now injection E as <-.
Qed.

Lemma session_step_inv (st st' : loop_state) (entry : value) :
  session_step st entry = Normal st' ->
  nullish entry = false
  /\ (st_totalInputTokens st', st_totalOutputTokens st')
     = count_tokens (st_totalInputTokens st) (st_totalOutputTokens st)
                    (chosen_usage entry)
  /\ count_message (st_messageCount st) entry = Normal (st_messageCount st')
  /\ first_user_step (st_firstUserMessage st) entry
     = Normal (st_firstUserMessage st')
  /\ summary_step (st_summary st) entry = Normal (st_summary st')
  /\ tool_step (st_toolUses st) entry = Normal (st_toolUses st')
  /\ model_step (st_model st) entry = Normal (st_model st').
Proof.
  unfold session_step. intros E. bind_inv E as usage Eu.
  apply usage_of_Normal in Eu as [N ->].
  destruct (count_tokens _ _ _) as [tin tout] eqn:CT.
  bind_inv E as count Ec. bind_inv E as first Ef. bind_inv E as summary Es.
  bind_inv E as tools Et. bind_inv E as model Em.
  injection E as <-. simpl.
  repeat split; assumption.
Qed.

Lemma session_loop_app (st : loop_state) (l1 l2 : list value) :
  session_loop st (l1 ++ l2)
  = (st' <- session_loop st l1;; session_loop st' l2).
Proof.
  revert st. induction l1 as [|e l1 IH]; intros st; simpl; [reflexivity|].
  destruct (session_step st e) as [st1|]; simpl; [apply IH | reflexivity].
Qed.


Lemma extractSessionInfo_Normal (entries : list value)
    (project filename : string) (info : SessionInfo) :
  extractSessionInfo entries project filename = Normal info ->
  exists st, session_loop initial_state entries = Normal st
    /\ summary info
       = or_else (st_summary st)
           (or_else (Str (st_firstUserMessage st)) (Str "No summary"))
    /\ totalInputTokens info = st_totalInputTokens st
    /\ totalOutputTokens info = st_totalOutputTokens st
    /\ totalTokens info
       = js_add (st_totalInputTokens st) (st_totalOutputTokens st)
    /\ toolUses info = st_toolUses st.
Proof.
  unfold extractSessionInfo. intros E. bind_inv E as st Est. exists st.
  injection E as <-. simpl. repeat split; assumption.
Qed.

(** ** The aggregator returns on well-formed records *)

Lemma prop_defined (v : value) (k : string) :
  nullish v = false -> prop v k = Normal (field v k).
Proof. unfold prop. now intros ->. Qed.

Lemma text_blocks_total (items : list value) :
  forallb (fun c => negb (nullish c)) items = true ->
  text_blocks items = Normal (filter is_text_block items).
Proof.
  unfold text_blocks. induction items as [|c items IH]; simpl;
    [reflexivity|].
  intros F. apply andb_prop in F as [C F].
  apply negb_true_iff in C. rewrite (prop_defined _ _ C). simpl.
  now rewrite (IH F).
Qed.

Lemma tool_blocks_loop_total (blocks : list value) :
  forallb (fun c => negb (nullish c)) blocks = true ->
  forall tools, exists tools', tool_blocks_loop tools blocks = Normal tools'.
Proof.
  induction blocks as [|b blocks IH]; simpl; intros F tools;
    [now exists tools|].
  apply andb_prop in F as [B F]. apply negb_true_iff in B.
  rewrite (prop_defined _ _ B). simpl.
  destruct (is_lit (field b "type") "tool_use" && truthy (field b "name"));
    apply (IH F).
Qed.

Lemma user_message_text_total (entry : value) :
  blocks_defined entry = true ->
  truthy (field entry "message") = true ->
  exists msg, user_message_text (field entry "message") = Normal msg.
Proof.
  unfold blocks_defined, user_message_text. intros B T.
  destruct (is_string (field entry "message")); [now eexists|].
  rewrite (prop_defined _ _ (truthy_not_nullish _ T)). simpl.
  destruct (truthy (field (field entry "message") "content"));
    [|now eexists].
  destruct (field (field entry "message") "content"); simpl;
    try (now eexists).
  rewrite (text_blocks_total _ B). simpl. now eexists.
Qed.

Lemma usage_of_total (entry : value) :
  nullish entry = false -> usage_of entry = Normal (chosen_usage entry).
Proof.
  intros D. unfold usage_of, chosen_usage.
  rewrite (prop_defined _ _ D). simpl.
  destruct (truthy (field entry "usage")); [reflexivity|].
  rewrite (prop_defined _ _ D). simpl. apply opt_prop_field.
Qed.

Lemma first_user_step_total (first : string) (entry : value) :
  nullish entry = false -> blocks_defined entry = true ->
  exists first', first_user_step first entry = Normal first'.
Proof.
  intros D B. unfold first_user_step. rewrite (prop_defined _ _ D). simpl.
  destruct (_ && _); [|now eexists].
  rewrite (prop_defined _ _ D). simpl.
  destruct (truthy (field entry "message")) eqn:T; [|now eexists].
  destruct (user_message_text_total entry B T) as (msg & ->).
  now eexists.
Qed.

Lemma summary_step_total (summary entry : value) :
  nullish entry = false ->
  exists summary', summary_step summary entry = Normal summary'.
Proof.
  intros D. unfold summary_step. rewrite (prop_defined _ _ D). simpl.
  destruct (is_lit _ _); [|now eexists].
  rewrite (prop_defined _ _ D). simpl. now eexists.
Qed.

Lemma tool_step_total (tools : list value) (entry : value) :
  nullish entry = false -> blocks_defined entry = true ->
  exists tools', tool_step tools entry = Normal tools'.
Proof.
  intros D B. unfold tool_step. rewrite (prop_defined _ _ D). simpl.
  destruct (is_lit (field entry "type") "assistant"); [|now eexists].
  rewrite (prop_defined _ _ D). simpl. rewrite opt_prop_field. simpl.
  unfold blocks_defined in B.
  destruct (field (field entry "message") "content"); try (now eexists).
  apply (tool_blocks_loop_total _ B).
Qed.

Lemma model_step_total (model entry : value) :
  nullish entry = false ->
  exists model', model_step model entry = Normal model'.
Proof.
  intros D. unfold model_step.
  destruct (truthy model); [now eexists|].
  rewrite (prop_defined _ _ D). simpl.
  destruct (truthy (field entry "model")); [now eexists|].
  rewrite (prop_defined _ _ D). simpl. rewrite opt_prop_field. simpl.
  now eexists.
Qed.

Lemma session_step_total (st : loop_state) (entry : value) :
  well_formed_record entry = true ->
  exists st', session_step st entry = Normal st'.
Proof.
  unfold well_formed_record. intros W. apply andb_prop in W as [D B].
  apply negb_true_iff in D. unfold session_step.
  rewrite (usage_of_total _ D). simpl.
  destruct (count_tokens _ _ _) as [tin tout].
  unfold count_message. rewrite (prop_defined _ _ D). simpl.
  destruct (first_user_step_total (st_firstUserMessage st) entry D B)
    as (first & ->). simpl.
  destruct (summary_step_total (st_summary st) entry D) as (summary & ->).
  simpl.
  destruct (tool_step_total (st_toolUses st) entry D B) as (tools & ->).
  simpl.
  destruct (model_step_total (st_model st) entry D) as (model & ->).
  simpl. now eexists.
Qed.

Lemma session_loop_total (entries : list value) :
  Forall (fun e => well_formed_record e = true) entries ->
  forall st, exists st', session_loop st entries = Normal st'.
Proof.
  induction 1 as [|e entries W _ IH]; intros st; simpl; [now exists st|].
  destruct (session_step_total st e W) as (st1 & ->). simpl. apply IH.
Qed.

Lemma extractSessionInfo_returns (entries : list value)
    (project filename : string) :
  Forall (fun e => well_formed_record e = true) entries ->
  exists info, extractSessionInfo entries project filename = Normal info.
Proof.
  intros W. unfold extractSessionInfo.
  destruct (session_loop_total entries W initial_state) as (st & ->).
  simpl. now eexists.
Qed.

Lemma parseJsonlFile_truthy (H : host) (filePath : string) :
  Forall (fun v => nullish v = false) (parseJsonlFile H filePath).
Proof.
  unfold parseJsonlFile. destruct (negb _); [constructor|].
  destruct (readFileSync H filePath); [|constructor].
  apply Forall_forall. intros v I. apply filter_In in I as [_ T].
  now apply truthy_not_nullish.
Qed.

(** ** Token totals *)








Lemma insert_by_mtime_Forall (P : SessionInfo -> Prop) (x : SessionInfo)
    (l : list SessionInfo) :
  P x -> Forall P l -> Forall P (insert_by_mtime x l).
Proof.
  intros Px. induction 1 as [|y l Py F IH]; simpl.
  - now constructor.
  - destruct (mtime_of x <? mtime_of y); repeat constructor; assumption.
Qed.









(** ** Summary text *)

Lemma Z_to_string_nonempty (n : Z) : Z_to_string n <> "".
Proof.
  unfold Z_to_string. destruct (Z.to_int n) as [d|d]; simpl.
  - destruct d; simpl; discriminate.
  - discriminate.
Qed.

Lemma serialize_defined (gap indent : string) (v : value) :
  v <> Undef -> exists s, serialize gap indent v = Some s /\ s <> "".
Proof.
  intros D. destruct v as [| | |b|n|s|l|fs]; simpl.
  - contradiction.
  - now exists "null".
  - now exists "null".
  - destruct b; eexists; split; try reflexivity; discriminate.
  - eexists. split; [reflexivity | apply Z_to_string_nonempty].
  - eexists. split; [reflexivity | discriminate].
  - eexists. split; [reflexivity|].
    destruct (map _ l); [discriminate|].
    destruct (gap =? "")%string; discriminate.
  - eexists. split; [reflexivity|].
    destruct (flat_map _ fs); [discriminate|].
    destruct (gap =? "")%string; discriminate.
Qed.

Lemma truthy_defined (v : value) : truthy v = true -> v <> Undef.
Proof. intros T ->. discriminate T. Qed.

Lemma truthy_Str (s : string) : s <> "" -> truthy (Str s) = true.
Proof. destruct s; [contradiction | reflexivity]. Qed.

Lemma JSON_stringify_truthy (v : value) :
  truthy v = true -> truthy (JSON_stringify v) = true.
Proof.
  intros T. unfold JSON_stringify.
  destruct (serialize_defined "" "" v (truthy_defined v T)) as (s & -> & N).
  now apply truthy_Str.
Qed.

Lemma summary_text_truthy (s : value) :
  truthy s = true -> truthy (summary_text s) = true.
Proof.
  intros T. unfold summary_text.
  destruct (is_string s); [exact T|].
  destruct (truthy (field s "content")) eqn:C.
  - destruct (is_string (field s "content")); [exact C|].
    now apply JSON_stringify_truthy.
  - now apply JSON_stringify_truthy.
Qed.

Lemma summary_step_Normal (summary summary' entry : value) :
  summary_step summary entry = Normal summary' ->
  summary' = if is_summary_record entry
             then summary_text (field entry "summary") else summary.
Proof.
  unfold summary_step, is_summary_record. intros E. bind_inv E as t Et.
  apply prop_Normal in Et as [N ->].
  destruct (is_lit (field entry "type") "summary"); simpl.
  - bind_inv E as s Es. apply prop_Normal in Es as [_ ->].
    now injection E as <-.
  - now injection E as <-.
Qed.

Lemma session_loop_summary_kept (post : list value) :
  Forall (fun x => is_summary_record x = false) post ->
  forall st st', session_loop st post = Normal st' ->
                 st_summary st' = st_summary st.
Proof.
  induction 1 as [|x post F _ IH]; intros st st' E; simpl in E.
  - now injection E as <-.
  - bind_inv E as st1 E1. rewrite (IH _ _ E).
    apply session_step_inv in E1 as (_ & _ & _ & _ & S & _).
    apply summary_step_Normal in S. now rewrite F in S.
Qed.

Lemma session_loop_last_summary (pre post : list value) (entry : value)
    (st st' : loop_state) :
  session_loop st (pre ++ entry :: post) = Normal st' ->
  is_summary_record entry = true ->
  Forall (fun x => is_summary_record x = false) post ->
  st_summary st' = summary_text (field entry "summary").
Proof.
  rewrite session_loop_app. intros E S F. bind_inv E as st1 E1.
  simpl in E. bind_inv E as st2 E2.
  rewrite (session_loop_summary_kept post F _ _ E).
  apply session_step_inv in E2 as (_ & _ & _ & _ & S2 & _).
  apply summary_step_Normal in S2. now rewrite S in S2.
Qed.

Lemma existsb_false_Forall {A : Type} (f : A -> bool) (l : list A) :
  existsb f l = false -> Forall (fun x => f x = false) l.
Proof.
  induction l as [|x l IH]; simpl; [constructor|].
  intros E. apply orb_false_elim in E as [Ex El].
  constructor; [exact Ex | exact (IH El)].
Qed.

Lemma existsb_last {A : Type} (f : A -> bool) (l : list A) :
  existsb f l = true ->
  exists pre x post, l = (pre ++ x :: post)%list /\ f x = true
                     /\ Forall (fun y => f y = false) post.
Proof.
  induction l as [|a l IH]; simpl; [discriminate|].
  intros E. destruct (existsb f l) eqn:El.
  - destruct (IH eq_refl) as (pre & x & post & -> & Fx & Fp).
    now exists (a :: pre), x, post.
  - rewrite orb_false_r in E. exists [], a, l.
    repeat split; [exact E|]. now apply existsb_false_Forall.
Qed.

(** C10: when several summary-type records carry a truthy [summary], the
    summary text is the one derived from the last of them; summary-type
    records after it whose [summary] is absent or falsy leave it
    unchanged. *)
Theorem last_summary_wins (pre post : list value) (entry : value)
    (project filename : string) (info : SessionInfo) :
  extractSessionInfo (pre ++ entry :: post) project filename = Normal info ->
  is_lit (field entry "type") "summary" = true ->
  truthy (field entry "summary") = true ->
  Forall (fun x => is_lit (field x "type") "summary" = true ->
                   truthy (field x "summary") = false) post ->
  summary info = summary_text (field entry "summary").
Proof.
  intros E T S F.
  apply extractSessionInfo_Normal in E as (st & L & -> & _).
  assert (F' : Forall (fun x => is_summary_record x = false) post).
  { eapply Forall_impl; [|exact F]. intros x Hx. unfold is_summary_record.
    simpl in Hx.
    destruct (is_lit (field x "type") "summary"); [|reflexivity].
    now rewrite (Hx eq_refl). }
  assert (S' : is_summary_record entry = true).
  { unfold is_summary_record. now rewrite T, S. }
  rewrite (session_loop_last_summary pre post entry _ _ L S' F').
  unfold or_else. now rewrite (summary_text_truthy _ S).
Qed.

Lemma last_summary_wins_witness :
  exists info,
    extractSessionInfo
      ([user_hello; Obj [("type", Str "summary"); ("summary", Str "first")]]
       ++ Obj [("type", Str "summary");
               ("summary", Obj [("content", Str "second")])]
       :: [Obj [("type", Str "summary")];
           Obj [("type", Str "summary"); ("summary", Str "")]])
      "p" "s.jsonl" = Normal info
    /\ summary info = Str "second".
Proof.
  eexists. split; [vm_compute; reflexivity|].
  apply (last_summary_wins
           [user_hello; Obj [("type", Str "summary"); ("summary", Str "first")]]
           [Obj [("type", Str "summary")];
            Obj [("type", Str "summary"); ("summary", Str "")]]
           (Obj [("type", Str "summary");
                 ("summary", Obj [("content", Str "second")])])
           "p" "s.jsonl").
  - vm_compute; reflexivity.
  - reflexivity.
  - reflexivity.
  - repeat constructor.
Defined.

(** C5: a summary record, when one is present, decides the summary text
    whatever the user messages are; without one the first user message is
    used, and without either the literal [No summary].  A session with the
    user message [hello] yields [hello]; with a summary record of text [S]
    added it yields [S]. *)
Theorem summary_precedence :
  (forall (entries : list value) (project filename : string)
          (info : SessionInfo) (st : loop_state),
      extractSessionInfo entries project filename = Normal info ->
      session_loop initial_state entries = Normal st ->
      (existsb is_summary_record entries = true ->
       exists entry, In entry entries
                     /\ is_summary_record entry = true
                     /\ summary info = summary_text (field entry "summary"))
      /\ (existsb is_summary_record entries = false ->
          st_firstUserMessage st <> "" ->
          summary info = Str (st_firstUserMessage st))
      /\ (existsb is_summary_record entries = false ->
          st_firstUserMessage st = "" ->
          summary info = Str "No summary"))
  /\ (exists info, extractSessionInfo [user_hello] "p" "s.jsonl" = Normal info
                   /\ summary info = Str "hello")
  /\ (exists info,
        extractSessionInfo [user_hello; summary_S] "p" "s.jsonl" = Normal info
        /\ summary info = Str "S")
  /\ (exists info,
        extractSessionInfo [summary_S; user_hello] "p" "s.jsonl" = Normal info
        /\ summary info = Str "S").
Proof.
  split; [|repeat split; eexists; split; vm_compute; reflexivity].
  intros entries project filename info st E L.
  apply extractSessionInfo_Normal in E as (st0 & L0 & S & _).
  rewrite L in L0. injection L0 as <-.
  repeat split.
  - intros X. apply existsb_last in X as (pre & e & post & -> & Se & F).
    exists e. split; [apply in_elt|]. split; [exact Se|].
    rewrite S, (session_loop_last_summary pre post e _ _ L Se F).
    unfold is_summary_record in Se. apply andb_prop in Se as [_ Te].
    unfold or_else. now rewrite (summary_text_truthy _ Te).
  - intros X N. apply existsb_false_Forall in X.
    rewrite S, (session_loop_summary_kept entries X _ _ L). simpl.
    unfold or_else. now rewrite (truthy_Str _ N).
  - intros X N. apply existsb_false_Forall in X.
    rewrite S, (session_loop_summary_kept entries X _ _ L), N.
    reflexivity.
Qed.

Lemma summary_precedence_witness :
  exists info st,
    extractSessionInfo [user_hello; Obj [("type", Str "progress")]] "p"
                       "s.jsonl" = Normal info
    /\ session_loop initial_state
                    [user_hello; Obj [("type", Str "progress")]] = Normal st
    /\ summary info = Str (st_firstUserMessage st).
Proof.
  eexists. eexists. split; [vm_compute; reflexivity|].
  split; [vm_compute; reflexivity|].
  apply (proj1 summary_precedence
           [user_hello; Obj [("type", Str "progress")]] "p" "s.jsonl").
  - vm_compute; reflexivity.
  - vm_compute; reflexivity.
  - reflexivity.
  - vm_compute. discriminate.
Defined.

(** ** First user message *)


Lemma text_blocks_Normal (items blocks : list value) :
  text_blocks items = Normal blocks -> blocks = filter is_text_block items.
Proof.
  unfold text_blocks. revert blocks.
  induction items as [|c items IH]; intros blocks E; simpl in E.
  - now injection E as <-.
  - bind_inv E as b Eb. bind_inv Eb as t Et.
    apply prop_Normal in Et as [_ ->]. injection Eb as <-.
    bind_inv E as ys Ey. injection E as <-.
    simpl. unfold is_text_block at 1. now rewrite (IH ys Ey).
Qed.

Lemma or_else_ToString (v : value) :
  (if nullish (or_else v (Str "")) then ""
   else ToString (or_else v (Str ""))) = ToString (or_else v (Str "")).
Proof.
  unfold or_else. destruct (truthy v) eqn:T; [|reflexivity].
  now rewrite (truthy_not_nullish v T).
Qed.

Lemma user_message_text_Normal (message msg : value) :
  truthy message = true ->
  user_message_text message = Normal msg ->
  ToString msg = fallback_text_spec message.
Proof.
  intros T. unfold user_message_text, fallback_text_spec.
  destruct (is_string message) eqn:S.
  - intros E. injection E as <-. now destruct message.
  - intros E. bind_inv E as content Ec. apply prop_Normal in Ec as [_ ->].
    assert (M : match message with Str _ => False | _ => True end)
      by now destruct message.
    destruct message; try contradiction;
      try (simpl in *; now injection E as <-).
    simpl in *. destruct (truthy (lookup "content" fields)) eqn:C;
      [|now injection E as <-].
    destruct (lookup "content" fields) as [| | |b|n|c|items|fs];
      simpl in E; try (now injection E as <-).
    bind_inv E as blocks Eb. apply text_blocks_Normal in Eb as ->.
    injection E as <-. simpl. unfold Array_join. rewrite map_map.
    f_equal. apply map_ext. intros c. apply or_else_ToString.
Qed.

Lemma substring0_length (n : nat) (s : string) :
  (length (substring0 n s) <= n)%nat.
Proof.
  unfold substring0. revert s. induction n as [|n IH]; intros s.
  - destruct s; simpl; lia.
  - destruct s as [|c s]; simpl; [lia|]. specialize (IH s). lia.
Qed.

Lemma first_user_step_kept (first first' : string) (entry : value) :
  first <> "" ->
  first_user_step first entry = Normal first' -> first' = first.
Proof.
  intros N. unfold first_user_step. intros E. bind_inv E as t Et.
  rewrite (truthy_Str _ N), andb_false_r in E. now injection E as <-.
Qed.

Lemma first_user_step_capture (entry : value) (text : string) :
  first_user_step "" entry = Normal text ->
  text <> "" ->
  is_lit (field entry "type") "user" = true
  /\ truthy (field entry "message") = true
  /\ text = substring0 200 (fallback_text_spec (field entry "message")).
Proof.
  unfold first_user_step. intros E N. bind_inv E as t Et.
  apply prop_Normal in Et as [D ->].
  destruct (is_lit (field entry "type") "user"); simpl in E;
    [|injection E as <-; contradiction].
  bind_inv E as message Em. apply prop_Normal in Em as [_ ->].
  destruct (truthy (field entry "message")) eqn:T;
    [|injection E as <-; contradiction].
  bind_inv E as msg Emsg. injection E as <-.
  now rewrite (user_message_text_Normal _ _ T Emsg).
Qed.

Lemma first_user_step_skip (entry : value) :
  nullish entry = false ->
  is_lit (field entry "type") "user" = false
  \/ truthy (field entry "message") = false ->
  first_user_step "" entry = Normal "".
Proof.
  intros D C. unfold first_user_step, prop. rewrite D. simpl.
  destruct (is_lit (field entry "type") "user"); [|reflexivity]. simpl.
  destruct C as [C|C]; [discriminate|]. now rewrite C.
Qed.

Lemma session_loop_first_blank (pre : list value) :
  Forall (fun x => first_user_step "" x = Normal "") pre ->
  forall st st', st_firstUserMessage st = "" ->
                 session_loop st pre = Normal st' ->
                 st_firstUserMessage st' = "".
Proof.
  induction 1 as [|x pre B _ IH]; intros st st' F E; simpl in E.
  - now injection E as <-.
  - bind_inv E as st1 E1. apply (IH st1 st'); [|exact E].
    apply session_step_inv in E1 as (_ & _ & _ & S & _).
    rewrite F, B in S. now injection S.
Qed.

Lemma session_loop_first_kept (post : list value) :
  forall st st', st_firstUserMessage st <> "" ->
                 session_loop st post = Normal st' ->
                 st_firstUserMessage st' = st_firstUserMessage st.
Proof.
  induction post as [|x post IH]; intros st st' N E; simpl in E.
  - now injection E as <-.
  - bind_inv E as st1 E1.
    apply session_step_inv in E1 as (_ & _ & _ & S & _).
    apply (first_user_step_kept _ _ _ N) in S.
    rewrite <- S. apply IH; [now rewrite S | exact E].
Qed.

(** C9, as amended: the fallback is captured from the first record of type
    user that has a (truthy) message and a non-empty text, the user records
    before it that lack a message or yield an empty text being passed over,
    and it is kept from then on; the text is a string message or string
    content as it is, array content as its text-typed blocks joined by one
    space, any other shape stringified, cut to 200 characters. *)
Theorem first_user_message :
  (forall (pre post : list value) (entry : value) (st : loop_state)
          (text : string),
      session_loop initial_state (pre ++ entry :: post) = Normal st ->
      Forall (fun x => first_user_step "" x = Normal "") pre ->
      first_user_step "" entry = Normal text ->
      text <> "" ->
      st_firstUserMessage st = text
      /\ is_lit (field entry "type") "user" = true
      /\ truthy (field entry "message") = true
      /\ text = substring0 200 (fallback_text_spec (field entry "message"))
      /\ (length text <= 200)%nat)
  /\ (forall entry : value,
        nullish entry = false ->
        is_lit (field entry "type") "user" = false
        \/ truthy (field entry "message") = false ->
        first_user_step "" entry = Normal "").
Proof.
  split; [|exact first_user_step_skip].
  intros pre post entry st text E B C N.
  rewrite session_loop_app in E. bind_inv E as st1 E1. simpl in E.
  bind_inv E as st2 E2.
  assert (F1 := session_loop_first_blank pre B initial_state st1 eq_refl E1).
  apply session_step_inv in E2 as (_ & _ & _ & S & _).
  rewrite F1, C in S. injection S as S.
  assert (K := session_loop_first_kept post st2 st).
  rewrite <- S in K. rewrite (K N E).
  destruct (first_user_step_capture entry text C N) as (U & T & X).
  repeat split; try assumption.
  rewrite X. apply substring0_length.
Qed.

Lemma first_user_message_witness :
  exists st,
    session_loop initial_state
      ([Obj [("type", Str "summary")]; user_blank]
       ++ user_hello :: [user_hi]) = Normal st
    /\ st_firstUserMessage st = "hello".
Proof.
  eexists. split; [vm_compute; reflexivity|].
  apply (proj1 first_user_message
           [Obj [("type", Str "summary")]; user_blank] [user_hi] user_hello).
  - vm_compute; reflexivity.
  - repeat constructor.
  - reflexivity.
  - discriminate.
Defined.

(** C9, as stated, fails: the first record of type user below has array
    content without text, its text is empty, and the fallback is taken from
    the user record after it. *)
Lemma first_user_message_not_first :
  exists st,
    session_loop initial_state [user_blank; user_hi] = Normal st
    /\ is_lit (field user_blank "type") "user" = true
    /\ substring0 200 (fallback_text_spec (field user_blank "message")) = ""
    /\ st_firstUserMessage st = "hi".
Proof.
  eexists. split; [vm_compute; reflexivity|]. repeat split.
Qed.

(** ** Tool names *)

Lemma SameValueZero_eq (a b : value) : SameValueZero a b = true -> a = b.
Proof.
  destruct a, b; simpl; try discriminate; try reflexivity; intros E.
  - now apply Bool.eqb_prop in E as ->.
  - now apply Z.eqb_eq in E as ->.
  - now apply String.eqb_eq in E as ->.
Qed.

Lemma SameValueZero_sym (a b : value) : SameValueZero a b = SameValueZero b a.
Proof.
  destruct a, b; simpl; try reflexivity.
  - now destruct b, b0.
  - apply Z.eqb_sym.
  - apply String.eqb_sym.
Qed.

Lemma filter_andb {A : Type} (f g : A -> bool) (l : list A) :
  filter (fun x => f x && g x) l = filter g (filter f l).
Proof.
  induction l as [|x l IH]; simpl; [reflexivity|].
  destruct (f x); simpl; [|exact IH]. destruct (g x); now rewrite IH.
Qed.

Lemma filter_comm {A : Type} (f g : A -> bool) (l : list A) :
  filter f (filter g l) = filter g (filter f l).
Proof.
  rewrite <- !filter_andb. apply filter_ext. intros x. apply andb_comm.
Qed.

Lemma filter_absorb {A : Type} (f g : A -> bool) (l : list A) :
  (forall x, f x = true -> g x = true) ->
  filter f (filter g l) = filter f l.
Proof.
  intros I. rewrite <- filter_andb. apply filter_ext. intros x.
  destruct (f x) eqn:F; [|apply andb_false_r]. now rewrite (I x F).
Qed.

Lemma first_occurrences_filter (x : value) (l : list value) :
  first_occurrences (filter (fun y => negb (SameValueZero x y)) l)
  = filter (fun y => negb (SameValueZero x y)) (first_occurrences l).
Proof.
  induction l as [|a l IH]; simpl; [reflexivity|].
  destruct (SameValueZero x a) eqn:S; simpl.
  - rewrite IH. symmetry. apply filter_absorb. intros z Z.
    apply SameValueZero_eq in S as <-. exact Z.
  - rewrite IH. f_equal. apply filter_comm.
Qed.

Lemma push_unique_fold (l : list value) :
  forall acc : list value,
    fold_left push_unique l acc
    = (acc ++ first_occurrences
                (filter (fun x =>
                           negb (existsb (fun y => SameValueZero y x) acc))
                        l))%list.
Proof.
  induction l as [|x l IH]; intros acc; simpl.
  - now rewrite app_nil_r.
  - unfold push_unique at 2.
    destruct (existsb (fun y => SameValueZero y x) acc) eqn:X; simpl.
    + apply IH.
    + rewrite IH, <- app_assoc. simpl. do 2 f_equal.
      rewrite <- first_occurrences_filter, <- filter_andb. f_equal.
      apply filter_ext. intros y. rewrite existsb_app. simpl.
      now rewrite orb_false_r, negb_orb, (SameValueZero_sym x y).
Qed.

Lemma push_unique_fold_nil (l : list value) :
  fold_left push_unique l [] = first_occurrences l.
Proof.
  rewrite push_unique_fold. simpl. f_equal.
  induction l as [|x l IH]; simpl; [reflexivity | now rewrite IH].
Qed.

Lemma tool_blocks_loop_Normal (blocks : list value) :
  forall tools tools' : list value,
    tool_blocks_loop tools blocks = Normal tools' ->
    tools' = fold_left push_unique
               (map (fun b => field b "name") (filter is_tool_block blocks))
               tools.
Proof.
  induction blocks as [|b blocks IH]; intros tools tools' E; simpl in E.
  - now injection E as <-.
  - bind_inv E as t Et. apply prop_Normal in Et as [_ ->].
    simpl. unfold is_tool_block at 1.
    destruct (is_lit (field b "type") "tool_use" && truthy (field b "name"));
      simpl; exact (IH _ _ E).
Qed.

Lemma tool_step_Normal (tools tools' : list value) (entry : value) :
  tool_step tools entry = Normal tools' ->
  tools' = fold_left push_unique (contributed_names entry) tools.
Proof.
  unfold tool_step, contributed_names, own_tool_name, block_tool_names.
  intros E. bind_inv E as t Et. apply prop_Normal in Et as [_ ->].
  rewrite fold_left_app.
  destruct (is_lit (field entry "type") "tool_use"
            || truthy (field entry "tool")); simpl;
    (destruct (is_lit (field entry "type") "assistant");
     [ bind_inv E as message Em; apply prop_Normal in Em as [_ ->];
       rewrite opt_prop_field in E; simpl in E;
       destruct (field (field entry "message") "content");
       try (now injection E as <-);
       exact (tool_blocks_loop_Normal _ _ _ E)
     | now injection E as <- ]).
Qed.

Lemma session_loop_tools (entries : list value) :
  forall st st' : loop_state,
    session_loop st entries = Normal st' ->
    st_toolUses st'
    = fold_left push_unique (flat_map contributed_names entries)
                (st_toolUses st).
Proof.
  induction entries as [|e entries IH]; intros st st' E; simpl in E.
  - now injection E as <-.
  - bind_inv E as st1 E1. simpl. rewrite fold_left_app, (IH _ _ E).
    apply session_step_inv in E1 as (_ & _ & _ & _ & _ & T & _).
    now rewrite (tool_step_Normal _ _ _ T).
Qed.

Lemma ForallOrdPairs_filter {A : Type} (R : A -> A -> Prop) (f : A -> bool)
    (l : list A) :
  ForallOrdPairs R l -> ForallOrdPairs R (filter f l).
Proof.
  induction 1 as [|x l F _ IH]; simpl; [constructor|].
  destruct (f x); [|exact IH]. constructor; [|exact IH].
  apply Forall_forall. intros y Y. apply filter_In in Y as [Y _].
  exact (proj1 (Forall_forall _ _) F y Y).
Qed.

Lemma first_occurrences_distinct (l : list value) :
  ForallOrdPairs (fun a b => SameValueZero a b = false)
                 (first_occurrences l).
Proof.
  induction l as [|x l IH]; simpl; constructor.
  - apply Forall_forall. intros y Y. apply filter_In in Y as [_ Y].
    now apply negb_true_iff in Y.
  - now apply ForallOrdPairs_filter.
Qed.

Lemma first_occurrences_In (l : list value) (x : value) :
  In x (first_occurrences l) <-> In x l.
Proof.
  induction l as [|a l IH]; simpl; [reflexivity|].
  rewrite filter_In, IH. split.
  - intros [E|[I _]]; [now left | now right].
  - intros [E|I]; [now left|].
    destruct (SameValueZero a x) eqn:S.
    + left. now apply SameValueZero_eq.
    + right. now split.
Qed.

Lemma SameValueZero_refl (x : value) :
  is_primitive x = true -> SameValueZero x x = true.
Proof.
  destruct x; simpl; try reflexivity; try discriminate; intros _.
  - now destruct b.
  - apply Z.eqb_refl.
  - apply String.eqb_refl.
Qed.

Lemma distinct_primitives_NoDup (l : list value) :
  Forall (fun x => is_primitive x = true) l ->
  ForallOrdPairs (fun a b => SameValueZero a b = false) l ->
  NoDup l.
Proof.
  intros P. induction 1 as [|x l F _ IH]; constructor.
  - intros I. apply (proj1 (Forall_forall _ _) F) in I.
    inversion P as [|x' l' Px _]; subst.
    now rewrite (SameValueZero_refl x Px) in I.
  - apply IH. now inversion P.
Qed.

(** C6: the tool list of a summary is the sequence of contributed names
    with every name at its first occurrence only: no two of its entries
    are the same name (by the comparison of [includes]; for names that are
    strings, or any values other than arrays and objects, none occurs
    twice), it holds exactly the contributed names, and the contributed
    sequence grep, read, grep, write yields grep, read, write. *)
Theorem tool_names_deduplicated :
  (forall (entries : list value) (project filename : string)
          (info : SessionInfo),
      extractSessionInfo entries project filename = Normal info ->
      let contributed := flat_map contributed_names entries in
      toolUses info = first_occurrences contributed
      /\ ForallOrdPairs (fun a b => SameValueZero a b = false) (toolUses info)
      /\ (forall x, In x (toolUses info) <-> In x contributed)
      /\ (Forall (fun x => is_primitive x = true) contributed ->
          NoDup (toolUses info)))
  /\ first_occurrences [Str "grep"; Str "read"; Str "grep"; Str "write"]
     = [Str "grep"; Str "read"; Str "write"]
  /\ (exists info,
        extractSessionInfo
          [tool_use_record "grep"; tool_use_record "read";
           tool_use_record "grep"; tool_use_record "write"] "p" "s.jsonl"
        = Normal info
        /\ toolUses info = [Str "grep"; Str "read"; Str "write"])
  /\ (exists info,
        extractSessionInfo
          [Obj [("tool", Str "grep")]; assistant_tools ["read"; "grep"];
           tool_use_record "write"] "p" "s.jsonl" = Normal info
        /\ toolUses info = [Str "grep"; Str "read"; Str "write"]).
Proof.
  split; [|repeat split; try (eexists; split); vm_compute; reflexivity].
  intros entries project filename info E contributed.
  apply extractSessionInfo_Normal in E as (st & L & _ & _ & _ & _ & T).
  apply session_loop_tools in L. simpl in L.
  rewrite push_unique_fold_nil in L.
  assert (X : toolUses info = first_occurrences contributed)
    by now rewrite T, L.
  rewrite X. repeat split.
  - apply first_occurrences_distinct.
  - apply first_occurrences_In.
  - apply first_occurrences_In.
  - intros S. apply distinct_primitives_NoDup;
      [|apply first_occurrences_distinct].
    apply Forall_forall. intros x I.
    apply (proj1 (first_occurrences_In _ _)) in I.
    exact (proj1 (Forall_forall _ _) S x I).
Qed.

Lemma tool_names_deduplicated_witness :
  exists info,
    extractSessionInfo
      [Obj [("tool", Str "grep")]; assistant_tools ["read"; "grep"];
       tool_use_record "write"] "p" "s.jsonl" = Normal info
    /\ NoDup (toolUses info).
Proof.
  eexists. split; [vm_compute; reflexivity|].
  apply (proj1 tool_names_deduplicated
           [Obj [("tool", Str "grep")]; assistant_tools ["read"; "grep"];
            tool_use_record "write"] "p" "s.jsonl").
  - vm_compute; reflexivity.
  - repeat constructor.
Defined.

(** ** Content formatter *)

Lemma substring0_all (n : nat) (s : string) :
  (length s <= n)%nat -> substring0 n s = s.
Proof.
  unfold substring0. revert s. induction n as [|n IH]; intros s L.
  - destruct s; [reflexivity | simpl in L; lia].
  - destruct s as [|c s]; [reflexivity|]. simpl in *.
    f_equal. apply IH. lia.
Qed.

Lemma substring0_cut (n : nat) (s : string) :
  (n <= length s)%nat -> length (substring0 n s) = n.
Proof.
  unfold substring0. revert s. induction n as [|n IH]; intros s L.
  - now destruct s.
  - destruct s as [|c s]; simpl in *; [lia|]. f_equal. apply IH. lia.
Qed.

Lemma append_empty (s : string) : s ++ "" = s.
Proof. induction s as [|c s IH]; simpl; [reflexivity | now rewrite IH]. Qed.

Lemma format_tool_result (entry : value) (result : string) :
  field entry "type" = Str "tool_result" ->
  field entry "result" = Str result ->
  result <> "" ->
  formatEntryContent entry
  = Normal (Str (label_result ++ substring0 500 result
                 ++ (if (500 <? length result)%nat then "..." else ""))).
Proof.
  intros T R N. unfold formatEntryContent, prop.
  assert (D : nullish entry = false) by (destruct entry; discriminate || easy).
  rewrite D. simpl. rewrite T, R. simpl.
  unfold or_else. now rewrite (truthy_Str _ N).
Qed.

(** C7: a tool_result record with a result string of 600 characters is
    formatted as the label, the first 500 characters and the marker [...];
    one of 400 characters as the label and the string unchanged.  The same
    holds for every string longer than 500, and for every non-empty one of
    at most 500 characters. *)
Theorem tool_result_truncation (entry : value) (result : string) :
  field entry "type" = Str "tool_result" ->
  field entry "result" = Str result ->
  ((500 < length result)%nat ->
   formatEntryContent entry
   = Normal (Str (label_result ++ substring0 500 result ++ "..."))
   /\ length (substring0 500 result) = 500%nat)
  /\ ((0 < length result <= 500)%nat ->
      formatEntryContent entry = Normal (Str (label_result ++ result)))
  /\ (length result = 600%nat ->
      formatEntryContent entry
      = Normal (Str (label_result ++ substring0 500 result ++ "...")))
  /\ (length result = 400%nat ->
      formatEntryContent entry = Normal (Str (label_result ++ result))).
Proof.
  intros T R.
  assert (Long : (500 < length result)%nat ->
                 formatEntryContent entry
                 = Normal (Str (label_result ++ substring0 500 result
                                ++ "..."))).
  { intros L. rewrite (format_tool_result entry result T R).
    - now rewrite (proj2 (Nat.ltb_lt _ _) L).
    - intros ->. simpl in L. lia. }
  assert (Short : (0 < length result <= 500)%nat ->
                  formatEntryContent entry
                  = Normal (Str (label_result ++ result))).
  { intros [P L]. rewrite (format_tool_result entry result T R).
    - rewrite (proj2 (Nat.ltb_ge _ _) L), append_empty.
      now rewrite substring0_all.
    - intros ->. simpl in P. lia. }
  repeat split.
  - now apply Long.
  - apply substring0_cut. lia.
  - exact Short.
  - intros L. apply Long. lia.
  - intros L. apply Short. lia.
Qed.

Lemma tool_result_truncation_witness :
  formatEntryContent (tool_result_record (repeat_string "abcdefghij" 60))
  = Normal (Str (label_result ++ repeat_string "abcdefghij" 50 ++ "..."))
  /\ formatEntryContent (tool_result_record (repeat_string "abcdefghij" 40))
     = Normal (Str (label_result ++ repeat_string "abcdefghij" 40)).
Proof.
  split.
  - exact (proj1 (proj2 (proj2
             (tool_result_truncation
                (tool_result_record (repeat_string "abcdefghij" 60))
                (repeat_string "abcdefghij" 60) eq_refl eq_refl))) eq_refl).
  - exact (proj2 (proj2 (proj2
             (tool_result_truncation
                (tool_result_record (repeat_string "abcdefghij" 40))
                (repeat_string "abcdefghij" 40) eq_refl eq_refl))) eq_refl).
Defined.

(** C4: the formatter is not total.  An assistant record with a tool_use
    block that has no [input] raises, where the branch for a tool_use
    record defaults a missing input to an empty object; so do a content
    array holding [null] and a thinking block whose text is not a
    string. *)
Theorem formatEntryContent_raises :
  formatEntryContent tool_use_without_input = Throw
  /\ formatEntryContent user_null_block = Throw
  /\ formatEntryContent thinking_not_string = Throw
  /\ formatEntryContent
       (Obj [("type", Str "tool_use"); ("name", Str "Read")])
     = Normal (Str (label_tool ++ "Read" ++ nl ++ "Input: {}")).
Proof. repeat split. Qed.

(** * Further properties of the code *)

(** ** Directory scanner *)

Lemma insert_by_mtime_sorted (x : SessionInfo) (l : list SessionInfo) :
  StronglySorted (fun a b => mtime_of b <= mtime_of a) l ->
  StronglySorted (fun a b => mtime_of b <= mtime_of a)
                 (insert_by_mtime x l).
Proof.
  induction 1 as [|y l S IH F]; simpl.
  - repeat constructor.
  - destruct (mtime_of x <? mtime_of y) eqn:C.
    + apply Z.ltb_lt in C. constructor; [exact IH|].
      apply insert_by_mtime_Forall; [lia | exact F].
    + apply Z.ltb_ge in C. constructor; [now constructor|].
      constructor; [exact C|].
      eapply Forall_impl; [|exact F]. simpl. intros z Z. lia.
Qed.

Lemma sort_by_mtime_sorted (l : list SessionInfo) :
  StronglySorted (fun a b => mtime_of b <= mtime_of a) (sort_by_mtime l).
Proof.
  induction l as [|x l IH]; simpl; [constructor|].
  now apply insert_by_mtime_sorted.
Qed.

Lemma insert_by_mtime_perm (x : SessionInfo) (l : list SessionInfo) :
  Permutation (x :: l) (insert_by_mtime x l).
Proof.
  induction l as [|y l IH]; simpl; [reflexivity|].
  destruct (mtime_of x <? mtime_of y); [|reflexivity].
  rewrite perm_swap. now constructor.
Qed.

Lemma sort_by_mtime_perm (l : list SessionInfo) :
  Permutation l (sort_by_mtime l).
Proof.
  induction l as [|x l IH]; simpl; [constructor|].
  rewrite <- insert_by_mtime_perm. now constructor.
Qed.

Lemma scan_files_listed (H : host) (project : string) (files : list string) :
  forall acc out : list SessionInfo,
    scan_files H project (path_join H [CLAUDE_DIR H; project]) files acc
    = Normal out ->
    exists found,
      out = (acc ++ found)%list
      /\ Forall2 (listed H)
                 (map (pair project)
                      (filter (fun f => endsWith f ".jsonl") files))
                 found.
Proof.
  induction files as [|file files IH]; intros acc out E; simpl in E.
  - injection E as <-. exists []. split; [now rewrite app_nil_r|constructor].
  - simpl. destruct (endsWith file ".jsonl"); simpl in E.
    + bind_inv E as st Est. bind_inv E as info Ei.
      destruct (IH _ _ E) as (found & -> & F).
      exists (attach info
                (path_join H [path_join H [CLAUDE_DIR H; project]; file]) st
              :: found).
      split; [now rewrite <- app_assoc|].
      constructor; [|exact F].
      exists st, info. simpl. repeat split; [|exact Ei].
      unfold of_host in Est. now destruct (statSync H _); inversion Est.
    + exact (IH _ _ E).
Qed.

Lemma scan_projects_listed (H : host) (projects : list string) :
  forall acc out : list SessionInfo,
    scan_projects H projects acc = Normal out ->
    exists found,
      out = (acc ++ found)%list
      /\ Forall2 (listed H) (session_files H projects) found.
Proof.
  induction projects as [|project projects IH]; intros acc out E; simpl in E.
  - injection E as <-. exists []. split; [now rewrite app_nil_r|constructor].
  - unfold session_files. simpl. unfold project_files at 1.
    bind_inv E as st Est. unfold of_host in Est.
    destruct (statSync H (path_join H [CLAUDE_DIR H; project])) as [st0|];
      [injection Est as ->|discriminate].
    destruct (isDirectory st); simpl in E.
    + bind_inv E as files Ef. unfold of_host in Ef.
      destruct (readdirSync H (path_join H [CLAUDE_DIR H; project]))
        as [files0|]; [injection Ef as ->|discriminate].
      bind_inv E as mid Em.
      destruct (scan_files_listed _ _ _ _ _ Em) as (f1 & -> & F1).
      destruct (IH _ _ E) as (f2 & -> & F2).
      exists (f1 ++ f2)%list. split; [now rewrite app_assoc|].
      now apply Forall2_app.
    + exact (IH _ _ E).
Qed.

(** X1: the sessions [getAllSessions] returns are ordered by their
    modification time, latest first. *)
Theorem getAllSessions_sorted (H : host) (sessions : list SessionInfo) :
  getAllSessions H = Normal sessions ->
  StronglySorted (fun a b => mtime_of b <= mtime_of a) sessions.
Proof.
  unfold getAllSessions. destruct (negb _).
  - intros E. injection E as <-. constructor.
  - intros E. bind_inv E as projects Ep. bind_inv E as found Ef.
    injection E as <-. apply sort_by_mtime_sorted.
Qed.

Lemma getAllSessions_sorted_witness :
  exists sessions,
    getAllSessions demo_host = Normal sessions
    /\ StronglySorted (fun a b => mtime_of b <= mtime_of a) sessions.
Proof.
  eexists. split; [vm_compute; reflexivity|].
  apply (getAllSessions_sorted demo_host). vm_compute; reflexivity.
Defined.

Lemma scan_lists_session_files (H : host) (sessions : list SessionInfo) :
  getAllSessions H = Normal sessions ->
  existsSync H (CLAUDE_DIR H) = true ->
  exists projects scanned,
    readdirSync H (CLAUDE_DIR H) = Some projects
    /\ Forall2 (listed H) (session_files H projects) scanned
    /\ Permutation scanned sessions.
Proof.
  unfold getAllSessions. intros E X. rewrite X in E. simpl in E.
  bind_inv E as projects Ep. bind_inv E as scanned Es. injection E as <-.
  exists projects, scanned.
  unfold of_host in Ep.
  destruct (readdirSync H (CLAUDE_DIR H)) as [ps|]; [|discriminate].
  injection Ep as ->. split; [reflexivity|].
  destruct (scan_projects_listed _ _ _ _ Es) as (found & -> & F).
  split; [exact F | apply sort_by_mtime_perm].
Qed.

(** X2: when the root exists, the sessions [getAllSessions] returns are,
    up to the final sort, exactly one summary for every file with the
    suffix [.jsonl] in every entry of the root that is a directory, in
    directory order, each computed from the decoded content of that file
    and carrying its path, modification time and size. *)
Theorem getAllSessions_lists_session_files (H : host)
    (sessions : list SessionInfo) :
  getAllSessions H = Normal sessions ->
  existsSync H (CLAUDE_DIR H) = true ->
  exists projects scanned,
    readdirSync H (CLAUDE_DIR H) = Some projects
    /\ Forall2 (listed H) (session_files H projects) scanned
    /\ Permutation scanned sessions.
Proof.
  intros E X. exact (scan_lists_session_files H sessions E X).
Qed.

Lemma getAllSessions_lists_session_files_witness :
  exists sessions scanned,
    getAllSessions demo_host = Normal sessions
    /\ Forall2 (listed demo_host)
               [("-home-u-p", "a.jsonl"); ("-home-u-p", "b.jsonl")] scanned
    /\ Permutation scanned sessions.
Proof.
  assert (G : exists sessions, getAllSessions demo_host = Normal sessions)
    by (eexists; vm_compute; reflexivity).
  destruct G as (sessions & G).
  destruct (getAllSessions_lists_session_files demo_host sessions G eq_refl)
    as (projects & scanned & Ep & F & P).
  exists sessions, scanned. split; [exact G|].
  injection Ep as <-. split; [exact F | exact P].
Defined.

(** ** Session aggregator: counters, model, strings *)

Lemma extractSessionInfo_fields (entries : list value)
    (dir filename : string) (info : SessionInfo) :
  extractSessionInfo entries dir filename = Normal info ->
  exists st, session_loop initial_state entries = Normal st
    /\ id info = replace_first ".jsonl" "" filename
    /\ project info = decodeProjectName dir
    /\ projectRaw info = dir
    /\ messageCount info = st_messageCount st
    /\ model info = st_model st
    /\ entryCount info = Z.of_nat (List.length entries).
Proof.
  unfold extractSessionInfo. intros E. bind_inv E as st Est. exists st.
  injection E as <-. simpl. repeat split; assumption.
Qed.

Lemma count_message_Normal (count count' : Z) (entry : value) :
  count_message count entry = Normal count' ->
  count' = count + (if is_message entry then 1 else 0).
Proof.
  unfold count_message, is_message. intros E. bind_inv E as t Et.
  apply prop_Normal in Et as [_ ->]. injection E as <-.
  destruct (_ || _); lia.
Qed.

Lemma session_loop_messageCount (entries : list value) :
  forall st st' : loop_state,
    session_loop st entries = Normal st' ->
    st_messageCount st'
    = st_messageCount st
      + Z.of_nat (List.length (filter is_message entries)).
Proof.
  induction entries as [|e entries IH]; intros st st' E; simpl in E.
  - injection E as <-. simpl. lia.
  - bind_inv E as st1 E1. rewrite (IH _ _ E).
    apply session_step_inv in E1 as (_ & _ & C & _).
    apply count_message_Normal in C. rewrite C. simpl.
    destruct (is_message e); simpl List.length; lia.
Qed.

(** X3: the message count of a summary is the number of records of type
    user or assistant, its entry count the number of all records; so the
    message count lies between zero and the entry count. *)
Theorem message_and_entry_counts (entries : list value)
    (project filename : string) (info : SessionInfo) :
  extractSessionInfo entries project filename = Normal info ->
  messageCount info = Z.of_nat (List.length (filter is_message entries))
  /\ entryCount info = Z.of_nat (List.length entries)
  /\ 0 <= messageCount info <= entryCount info.
Proof.
  intros E. apply extractSessionInfo_fields in E
    as (st & L & _ & _ & _ & M & _ & N).
  apply session_loop_messageCount in L. simpl in L.
  rewrite M, N, L. repeat split; try lia.
  apply inj_le. apply filter_length_le.
Qed.

Lemma message_and_entry_counts_witness :
  exists info,
    extractSessionInfo [user_hello; summary_S; both_usages; user_hi] "p"
                       "s.jsonl" = Normal info
    /\ messageCount info = 3 /\ entryCount info = 4.
Proof.
  eexists. split; [vm_compute; reflexivity|]. split.
  - refine (proj1 (message_and_entry_counts
                     [user_hello; summary_S; both_usages; user_hi]
                     "p" "s.jsonl" _ _)).
    vm_compute; reflexivity.
  - refine (proj1 (proj2 (message_and_entry_counts
                            [user_hello; summary_S; both_usages; user_hi]
                            "p" "s.jsonl" _ _))).
    vm_compute; reflexivity.
Defined.

Lemma model_step_Normal (model model' entry : value) :
  model_step model entry = Normal model' ->
  model' = if truthy model then model else model_of entry.
Proof.
  unfold model_step, model_of, or_else.
  destruct (truthy model); [now intros E; injection E as <-|].
  intros E. bind_inv E as m Em. apply prop_Normal in Em as [_ ->].
  destruct (truthy (field entry "model")); [now injection E as <-|].
  bind_inv E as message Emsg. apply prop_Normal in Emsg as [_ ->].
  rewrite opt_prop_field in E. simpl in E. now injection E as <-.
Qed.

Lemma session_loop_model_unset (pre : list value) :
  Forall (fun x => truthy (model_of x) = false) pre ->
  forall st st', truthy (st_model st) = false ->
                 session_loop st pre = Normal st' ->
                 truthy (st_model st') = false.
Proof.
  induction 1 as [|x pre F _ IH]; intros st st' M E; simpl in E.
  - now injection E as <-.
  - bind_inv E as st1 E1. apply (IH st1 st'); [|exact E].
    apply session_step_inv in E1 as (_ & _ & _ & _ & _ & _ & S).
    apply model_step_Normal in S. now rewrite M in S; rewrite S.
Qed.

Lemma session_loop_model_kept (post : list value) :
  forall st st', truthy (st_model st) = true ->
                 session_loop st post = Normal st' ->
                 st_model st' = st_model st.
Proof.
  induction post as [|x post IH]; intros st st' M E; simpl in E.
  - now injection E as <-.
  - bind_inv E as st1 E1.
    apply session_step_inv in E1 as (_ & _ & _ & _ & _ & _ & S).
    apply model_step_Normal in S. rewrite M in S.
    rewrite <- S. apply IH; [now rewrite S | exact E].
Qed.

(** X4: the model of a summary is the first truthy value among the
    [model] (else [message.model]) fields of the records, which no later
    record overrides; it is the empty string when no record has one. *)
Theorem model_first_wins :
  (forall (pre post : list value) (entry : value)
          (project filename : string) (info : SessionInfo),
      extractSessionInfo (pre ++ entry :: post) project filename
      = Normal info ->
      Forall (fun x => truthy (model_of x) = false) pre ->
      truthy (model_of entry) = true ->
      model info = model_of entry)
  /\ (forall (entries : list value) (project filename : string)
            (info : SessionInfo),
        extractSessionInfo entries project filename = Normal info ->
        Forall (fun x => truthy (model_of x) = false) entries ->
        truthy (model info) = false).
Proof.
  split.
  - intros pre post entry project filename info E F T.
    apply extractSessionInfo_fields in E as (st & L & _ & _ & _ & _ & M & _).
    rewrite session_loop_app in L. bind_inv L as st1 L1. simpl in L.
    bind_inv L as st2 L2.
    assert (U := session_loop_model_unset pre F initial_state st1 eq_refl L1).
    apply session_step_inv in L2 as (_ & _ & _ & _ & _ & _ & S).
    apply model_step_Normal in S. rewrite U in S.
    rewrite M, (session_loop_model_kept post st2 st); [exact S| |exact L].
    now rewrite S.
  - intros entries project filename info E F.
    apply extractSessionInfo_fields in E as (st & L & _ & _ & _ & _ & M & _).
    rewrite M.
    exact (session_loop_model_unset entries F initial_state st eq_refl L).
Qed.

Lemma model_first_wins_witness :
  exists info,
    extractSessionInfo
      ([user_hello]
       ++ Obj [("type", Str "assistant");
               ("message", Obj [("model", Str "opus")])]
       :: [Obj [("type", Str "assistant"); ("model", Str "haiku")]])
      "p" "s.jsonl" = Normal info
    /\ model info = Str "opus".
Proof.
  eexists. split; [vm_compute; reflexivity|].
  apply (proj1 model_first_wins [user_hello]
           [Obj [("type", Str "assistant"); ("model", Str "haiku")]]
           (Obj [("type", Str "assistant");
                 ("message", Obj [("model", Str "opus")])])
           "p" "s.jsonl").
  - vm_compute; reflexivity.
  - repeat constructor.
  - reflexivity.
Defined.

Lemma replace_all_char_length (a b : ascii) (s : string) :
  length (replace_all_char a b s) = length s.
Proof. induction s as [|c s IH]; simpl; [reflexivity | now rewrite IH]. Qed.

Lemma replace_all_char_absent (a b : ascii) (s : string) :
  a <> b -> has_char a (replace_all_char a b s) = false.
Proof.
  intros N. induction s as [|c s IH]; simpl; [reflexivity|].
  rewrite IH, orb_false_r. destruct (Ascii.eqb c a) eqn:C.
  - apply Ascii.eqb_neq. congruence.
  - exact C.
Qed.

Lemma replace_all_char_id (a b : ascii) (s : string) :
  has_char a s = false -> replace_all_char a b s = s.
Proof.
  induction s as [|c s IH]; simpl; [reflexivity|].
  intros N. apply orb_false_elim in N as [C N]. now rewrite C, (IH N).
Qed.

(** X5: decoding a project name keeps its length, leaves no hyphen, changes
    nothing in a name without hyphens and is therefore idempotent; a name
    with a hyphen is changed, so it and its decoding are two names with
    one decoding. *)
Theorem decodeProjectName_properties (encoded : string) :
  length (decodeProjectName encoded) = length encoded
  /\ has_char "-" (decodeProjectName encoded) = false
  /\ (has_char "-" encoded = false -> decodeProjectName encoded = encoded)
  /\ decodeProjectName (decodeProjectName encoded) = decodeProjectName encoded
  /\ (has_char "-" encoded = true -> decodeProjectName encoded <> encoded).
Proof.
  unfold decodeProjectName. repeat split.
  - apply replace_all_char_length.
  - now apply replace_all_char_absent.
  - apply replace_all_char_id.
  - apply replace_all_char_id. now apply replace_all_char_absent.
  - intros T E. rewrite <- E in T.
    now rewrite replace_all_char_absent in T.
Qed.

Lemma decodeProjectName_properties_witness :
  decodeProjectName "-home-u-my-app" = "/home/u/my/app"
  /\ decodeProjectName "-home-u-my-app" <> "-home-u-my-app"
  /\ decodeProjectName "/home/u/my/app" = "/home/u/my/app".
Proof.
  split; [reflexivity|]. split.
  - exact (proj2 (proj2 (proj2 (proj2
             (decodeProjectName_properties "-home-u-my-app")))) eq_refl).
  - exact (proj1 (proj2 (proj2
             (decodeProjectName_properties "/home/u/my/app"))) eq_refl).
Defined.

Lemma summary_text_string (s : value) :
  truthy s = true -> is_string (summary_text s) = true.
Proof.
  intros T. unfold summary_text.
  destruct (is_string s) eqn:S; [exact S|].
  assert (J : forall v, truthy v = true -> is_string (JSON_stringify v) = true).
  { intros v Tv. unfold JSON_stringify.
    now destruct (serialize_defined "" "" v (truthy_defined v Tv))
      as (t & -> & _). }
  destruct (truthy (field s "content")) eqn:C; [|now apply J].
  destruct (is_string (field s "content")) eqn:SC; [exact SC | now apply J].
Qed.

Lemma session_loop_summary_string (entries : list value) :
  forall st st' : loop_state,
    is_string (st_summary st) = true ->
    session_loop st entries = Normal st' ->
    is_string (st_summary st') = true.
Proof.
  induction entries as [|e entries IH]; intros st st' S E; simpl in E.
  - now injection E as <-.
  - bind_inv E as st1 E1. apply (IH st1 st'); [|exact E].
    apply session_step_inv in E1 as (_ & _ & _ & _ & U & _).
    apply summary_step_Normal in U. rewrite U.
    unfold is_summary_record.
    destruct (is_lit (field e "type") "summary"); [|exact S]. simpl.
    destruct (truthy (field e "summary")) eqn:T; [|exact S].
    now apply summary_text_string.
Qed.

Lemma contributed_names_truthy (entry : value) :
  Forall (fun x => truthy x = true) (contributed_names entry).
Proof.
  unfold contributed_names, own_tool_name, block_tool_names.
  apply Forall_app. split.
  - destruct (_ || _); constructor; [|constructor].
    unfold or_else. destruct (truthy (field entry "tool")) eqn:T; [exact T|].
    now destruct (truthy (field entry "name")) eqn:N.
  - destruct (is_lit (field entry "type") "assistant"); [|constructor].
    destruct (field (field entry "message") "content"); try constructor.
    apply Forall_forall. intros x I. apply in_map_iff in I as (b & <- & I).
    apply filter_In in I as [_ I]. unfold is_tool_block in I.
    now apply andb_prop in I as [_ I].
Qed.

(** X6: the summary text of every summary is a non-empty string, and
    every entry of its tool list is a truthy value (so never an empty
    name). *)
Theorem summary_and_tool_names_nonempty (entries : list value)
    (dir filename : string) (info : SessionInfo) :
  extractSessionInfo entries dir filename = Normal info ->
  (exists s, summary info = Str s /\ s <> "")
  /\ Forall (fun name => truthy name = true) (toolUses info).
Proof.
  intros E. apply extractSessionInfo_Normal in E
    as (st & L & S & _ & _ & _ & T).
  split.
  - assert (I := session_loop_summary_string entries initial_state st
                   eq_refl L).
    rewrite S. unfold or_else.
    destruct (st_summary st) as [| | |b|n|s|l|fs]; try discriminate I.
    simpl. destruct (s =? "")%string eqn:Es; simpl.
    + destruct (st_firstUserMessage st =? "")%string eqn:Ef; simpl.
      * now exists "No summary".
      * exists (st_firstUserMessage st). split; [reflexivity|].
        now apply String.eqb_neq.
    + exists s. split; [reflexivity | now apply String.eqb_neq].
  - rewrite T. apply session_loop_tools in L. simpl in L.
    rewrite push_unique_fold_nil in L. rewrite L.
    apply Forall_forall. intros x I.
    apply (proj1 (first_occurrences_In _ _)) in I.
    apply in_flat_map in I as (e & _ & I).
    exact (proj1 (Forall_forall _ _) (contributed_names_truthy e) x I).
Qed.

Lemma summary_and_tool_names_nonempty_witness :
  exists info,
    extractSessionInfo
      [Obj [("type", Str "tool_use")];
       Obj [("type", Str "summary"); ("summary", Obj [])]] "p" "s.jsonl"
    = Normal info
    /\ (exists s, summary info = Str s /\ s <> "")
    /\ Forall (fun name => truthy name = true) (toolUses info).
Proof.
  eexists. split; [vm_compute; reflexivity|].
  apply (summary_and_tool_names_nonempty
           [Obj [("type", Str "tool_use")];
            Obj [("type", Str "summary"); ("summary", Obj [])]]
           "p" "s.jsonl").
  vm_compute; reflexivity.
Defined.

(** X7: when records are appended to a log, the summary of the longer
    sequence keeps the tool list of the shorter one as a prefix, its
    message and entry counts do not decrease, and a model already found is
    kept. *)
Theorem extractSessionInfo_append (entries more : list value)
    (dir filename : string) (before after : SessionInfo) :
  extractSessionInfo entries dir filename = Normal before ->
  extractSessionInfo (entries ++ more) dir filename = Normal after ->
  (exists added, toolUses after = (toolUses before ++ added)%list)
  /\ messageCount before <= messageCount after
  /\ entryCount before <= entryCount after
  /\ (truthy (model before) = true -> model after = model before)
  /\ id after = id before /\ project after = project before.
Proof.
  intros B A.
  destruct (extractSessionInfo_Normal _ _ _ _ B)
    as (st1 & L1 & _ & _ & _ & _ & T1).
  destruct (extractSessionInfo_Normal _ _ _ _ A)
    as (st2 & L2 & _ & _ & _ & _ & T2).
  apply extractSessionInfo_fields in B
    as (st1' & L1' & I1 & P1 & _ & M1 & D1 & N1).
  apply extractSessionInfo_fields in A
    as (st2' & L2' & I2 & P2 & _ & M2 & D2 & N2).
  rewrite L1 in L1'. injection L1' as <-.
  rewrite L2 in L2'. injection L2' as <-.
  rewrite session_loop_app, L1 in L2. simpl in L2.
  repeat split.
  - rewrite T1, T2, (session_loop_tools more _ _ L2), push_unique_fold.
    now eexists.
  - rewrite M1, M2, (session_loop_messageCount more _ _ L2). lia.
  - rewrite N1, N2, length_app. lia.
  - rewrite D1, D2. intros M.
    exact (session_loop_model_kept more st1 st2 M L2).
  - now rewrite I1, I2.
  - now rewrite P1, P2.
Qed.

Lemma extractSessionInfo_append_witness :
  exists before after,
    extractSessionInfo [tool_use_record "grep"; user_hello] "p" "s.jsonl"
    = Normal before
    /\ extractSessionInfo
         ([tool_use_record "grep"; user_hello]
          ++ [assistant_tools ["read"; "grep"]]) "p" "s.jsonl"
       = Normal after
    /\ exists added, toolUses after = (toolUses before ++ added)%list.
Proof.
  eexists. eexists. split; [vm_compute; reflexivity|].
  split; [vm_compute; reflexivity|].
  refine (proj1 (extractSessionInfo_append
                   [tool_use_record "grep"; user_hello]
                   [assistant_tools ["read"; "grep"]] "p" "s.jsonl" _ _ _ _));
    vm_compute; reflexivity.
Defined.

(** ** Token sums in closed form *)









(** ** Record decoder: edge cases and appended lines *)

Lemma trimEnd_all_ws (w : string) : all_ws w = true -> trimEnd w = "".
Proof.
  induction w as [|c w IH]; simpl; [reflexivity|].
  intros A. apply andb_prop in A as [C A]. now rewrite (IH A), C.
Qed.

Lemma trimStart_all_ws (w : string) : all_ws w = true -> trimStart w = "".
Proof.
  induction w as [|c w IH]; simpl; [reflexivity|].
  intros A. apply andb_prop in A as [C A]. now rewrite C, (IH A).
Qed.

Lemma trimEnd_app_ws (a w : string) :
  all_ws w = true -> trimEnd (a ++ w) = trimEnd a.
Proof.
  intros A. induction a as [|c a IH]; simpl.
  - now apply trimEnd_all_ws.
  - now rewrite IH.
Qed.

Lemma trim_app_ws (s w : string) :
  starts_clean s = true -> all_ws w = true -> trim (s ++ w) = trim s.
Proof.
  intros S A. unfold trim. rewrite (trimStart_clean s S).
  destruct s as [|c s]; [discriminate|]. simpl in S.
  change (String c s ++ w) with (String c (s ++ w)).
  assert (T : trimStart (String c (s ++ w)) = String c (s ++ w)).
  { simpl. now destruct (is_ws c). }
  rewrite T. change (String c (s ++ w)) with (String c s ++ w).
  now apply trimEnd_app_ws.
Qed.

Lemma kept_lines_join_ws (ls : list string) (w : string) :
  text_lines ls -> all_ws w = true ->
  kept_lines (join nl ls ++ w) = filter (fun l => truthy (Str (trim l))) ls.
Proof.
  intros T A. rewrite <- (kept_lines_join ls T). unfold kept_lines.
  rewrite trim_app_ws; [reflexivity| |exact A].
  apply starts_clean_join. apply T.
Qed.

(** X10: the decoder fails open and yields only truthy records: a missing
    file, an unreadable file and a file of white space alone give the
    empty sequence, and no record returned is [null], [undefined],
    [false], zero or an empty string. *)
Theorem parseJsonlFile_fail_open (H : host) (filePath : string) :
  (existsSync H filePath = false -> parseJsonlFile H filePath = [])
  /\ (readFileSync H filePath = None -> parseJsonlFile H filePath = [])
  /\ (forall content, readFileSync H filePath = Some content ->
                      all_ws content = true ->
                      parseJsonlFile H filePath = [])
  /\ Forall (fun v => truthy v = true) (parseJsonlFile H filePath).
Proof.
  unfold parseJsonlFile. repeat split.
  - now intros ->.
  - intros ->. now destruct (negb _).
  - intros content -> A. destruct (negb _); [reflexivity|].
    unfold kept_lines, trim. now rewrite (trimStart_all_ws _ A).
  - destruct (negb _); [constructor|].
    destruct (readFileSync H filePath); [|constructor].
    apply Forall_forall. intros v I. now apply filter_In in I.
Qed.

Lemma parseJsonlFile_fail_open_witness :
  parseJsonlFile demo_host "/logs/-home-u-p/missing.jsonl" = []
  /\ parseJsonlFile demo_host "/logs/-home-u-p" = []
  /\ parseJsonlFile
       (host_of "/logs" [("/logs/blank.jsonl", File (nl ++ "  " ++ nl) 1)] [])
       "/logs/blank.jsonl" = [].
Proof.
  split; [|split].
  - exact (proj1 (parseJsonlFile_fail_open
                    demo_host "/logs/-home-u-p/missing.jsonl") eq_refl).
  - exact (proj1 (proj2 (parseJsonlFile_fail_open
                           demo_host "/logs/-home-u-p")) eq_refl).
  - exact (proj1 (proj2 (proj2
             (parseJsonlFile_fail_open
                (host_of "/logs"
                   [("/logs/blank.jsonl", File (nl ++ "  " ++ nl) 1)] [])
                "/logs/blank.jsonl"))) (nl ++ "  " ++ nl) eq_refl eq_refl).
Defined.

(** X11: a log is read append-only.  When lines are added at the end of a
    file, the records decoded from the longer file are the records decoded
    before, in the same order, followed by the records of the added lines;
    trailing white space (the final newline) does not matter. *)
Theorem parseJsonlFile_append (H1 H2 : host) (filePath : string)
    (ls more : list string) (w1 w2 : string) :
  (forall line, JSON_parse H2 line = JSON_parse H1 line) ->
  existsSync H1 filePath = true ->
  existsSync H2 filePath = true ->
  readFileSync H1 filePath = Some (join nl ls ++ w1) ->
  readFileSync H2 filePath = Some (join nl (ls ++ more) ++ w2) ->
  all_ws w1 = true -> all_ws w2 = true ->
  text_lines ls -> text_lines (ls ++ more) ->
  parseJsonlFile H2 filePath
  = (parseJsonlFile H1 filePath
     ++ filter truthy
          (map (parse_or_null H2)
               (filter (fun l => truthy (Str (trim l))) more)))%list.
Proof.
  intros P X1 X2 R1 R2 A1 A2 T1 T2. unfold parseJsonlFile.
  rewrite X1, X2, R1, R2. simpl.
  rewrite (kept_lines_join_ws _ _ T1 A1), (kept_lines_join_ws _ _ T2 A2).
  rewrite filter_app, map_app, filter_app. f_equal. f_equal.
  apply map_ext. intros l. unfold parse_or_null. now rewrite P.
Qed.

Lemma parseJsonlFile_append_witness :
  parseJsonlFile (host_of "/logs" log_after sample_values) "/logs/s.jsonl"
  = (parseJsonlFile (host_of "/logs" log_before sample_values) "/logs/s.jsonl"
     ++ [summary_S])%list.
Proof.
  apply (parseJsonlFile_append
           (host_of "/logs" log_before sample_values)
           (host_of "/logs" log_after sample_values) "/logs/s.jsonl"
           [line_of user_hello] ["{oops"; line_of summary_S] nl nl).
  - reflexivity.
  - reflexivity.
  - reflexivity.
  - vm_compute; reflexivity.
  - vm_compute; reflexivity.
  - reflexivity.
  - reflexivity.
  - repeat split; try (vm_compute; reflexivity). repeat constructor.
  - repeat split; try (vm_compute; reflexivity). repeat constructor.
Defined.

(** ** Content formatter: where it returns, and what *)











Lemma JSON_stringify2_defined (v : value) :
  v <> Undef -> exists s, JSON_stringify2 v = Str s /\ s <> "".
Proof.
  intros D. unfold JSON_stringify2.
  destruct (serialize_defined "  " "" v D) as (s & -> & N). now exists s.
Qed.










Lemma is_lit_eq (v : value) (lit : string) :
  is_lit v lit = true -> v = Str lit.
Proof.
  destruct v; try discriminate. simpl. intros E.
  now apply String.eqb_eq in E as ->.
Qed.


Ltac decide_lits_in E :=
  repeat match type of E with
         | context [is_lit (Str ?a) ?b] =>
             let r := eval vm_compute in (is_lit (Str a) b) in
             change (is_lit (Str a) b) with r in E
         end;
  cbv iota in E.

Lemma append_length (a b : string) :
  length (a ++ b) = (length a + length b)%nat.
Proof. induction a as [|c a IH]; simpl; [reflexivity | now rewrite IH]. Qed.

Lemma call_substring0_bound (v : value) (n : nat) (text : string) :
  call_substring0 v n = Normal text -> (length text <= n)%nat.
Proof.
  destruct v; try discriminate. simpl. intros E. injection E as <-.
  apply substring0_length.
Qed.






Lemma or_else_Str_nonempty (a b : string) :
  b <> "" -> exists s, or_else (Str a) (Str b) = Str s /\ s <> "".
Proof.
  intros N. unfold or_else. simpl. destruct (a =? "")%string eqn:E; simpl.
  - now exists b.
  - exists a. split; [reflexivity | now apply String.eqb_neq].
Qed.

Lemma truthy_string_nonempty (v : value) :
  truthy v = true -> is_string v = true -> exists s, v = Str s /\ s <> "".
Proof.
  destruct v; try discriminate. simpl. intros T _. exists s.
  split; [reflexivity|]. intros ->. discriminate T.
Qed.

(** X15: whenever the formatter returns for an assistant record whose
    [message] is not itself a string, the value is a non-empty string:
    empty renderings are replaced by a placeholder. *)
Theorem assistant_never_blank (entry v : value) :
  is_lit (field entry "type") "assistant" = true ->
  is_string (field entry "message") = false ->
  formatEntryContent entry = Normal v ->
  exists s, v = Str s /\ s <> "".
Proof.
  intros A M E. unfold formatEntryContent in E. bind_inv E as t Et.
  apply prop_Normal in Et as [D ->]. apply is_lit_eq in A.
  rewrite A in E. decide_lits_in E.
  unfold format_assistant in E. bind_inv E as message Em.
  apply prop_Normal in Em as [_ ->]. rewrite M in E.
  bind_inv E as mc Emc. rewrite opt_prop_field in Emc. injection Emc as <-.
  bind_inv E as r Er.
  destruct (truthy (field (field entry "message") "content")) eqn:Tm.
  - destruct (is_string (field (field entry "message") "content")) eqn:Sm.
    + injection Er as <-. injection E as <-.
      now apply truthy_string_nonempty.
    + destruct (field (field entry "message") "content") eqn:Emc;
        try (injection Er as <-);
        try (bind_inv Er as parts Ep; injection Er as <-;
             injection E as <-; now apply or_else_Str_nonempty).
      all: clear Tm Sm.
      all: bind_inv E as r2 Er2.
      all: destruct (truthy (field entry "content")) eqn:Tc;
        [ destruct (is_string (field entry "content")) eqn:Sc;
          [ injection Er2 as <-; injection E as <-;
            now apply truthy_string_nonempty
          | destruct (field entry "content") eqn:Ec;
            try (injection Er2 as <-);
            try (bind_inv Er2 as blocks Eb; injection Er2 as <-;
                 injection E as <-; now apply or_else_Str_nonempty) ]
        | injection Er2 as <- ].
      all: injection E as <-.
      all: destruct (truthy (field entry "message")) eqn:Tmsg;
        [ destruct (JSON_stringify2_defined _ (truthy_defined _ Tmsg))
            as (txt & -> & N); now exists txt
        | now exists "[Empty response]" ].
  - injection Er as <-. bind_inv E as r2 Er2.
    destruct (truthy (field entry "content")) eqn:Tc;
      [ destruct (is_string (field entry "content")) eqn:Sc;
        [ injection Er2 as <-; injection E as <-;
          now apply truthy_string_nonempty
        | destruct (field entry "content") eqn:Ec;
          try (injection Er2 as <-);
          try (bind_inv Er2 as blocks Eb; injection Er2 as <-;
               injection E as <-; now apply or_else_Str_nonempty) ]
      | injection Er2 as <- ].
    all: injection E as <-.
    all: destruct (truthy (field entry "message")) eqn:Tmsg;
      [ destruct (JSON_stringify2_defined _ (truthy_defined _ Tmsg))
          as (txt & -> & N); now exists txt
      | now exists "[Empty response]" ].
Qed.

Lemma assistant_never_blank_witness :
  exists s,
    formatEntryContent
      (Obj [("type", Str "assistant");
            ("message", Obj [("content", Arr [Obj [("type", Str "image")]])])])
    = Normal (Str s)
    /\ s <> "".
Proof.
  destruct (assistant_never_blank
              (Obj [("type", Str "assistant");
                    ("message",
                     Obj [("content", Arr [Obj [("type", Str "image")]])])])
              (Str "[Processing...]") eq_refl eq_refl eq_refl)
    as (s & E & N).
  exists s. split; [now rewrite <- E | exact N].
Defined.

(** ** Session details *)

Lemma format_entries_spec (H : host) (entries : list value) :
  forall (index : Z) (messages : list PresentableEntry),
    format_entries index entries = Normal messages ->
    map pe_raw messages = entries
    /\ map pe_index messages
       = map (fun k => index + Z.of_nat k) (seq 0 (List.length entries))
    /\ Forall (fun m =>
                 formatEntryContent (pe_raw m) = Normal (pe_content m)
                 /\ pe_type m
                    = or_else (field (pe_raw m) "type") (Str "unknown")
                 /\ pe_timestamp m
                    = or_else (field (pe_raw m) "timestamp")
                              (field (pe_raw m) "ts")) messages.
Proof.
  induction entries as [|e entries IH]; intros index messages E; simpl in E.
  - injection E as <-. repeat split. constructor.
  - bind_inv E as t Et. apply prop_Normal in Et as [_ ->].
    bind_inv E as content Ec. bind_inv E as rest Er. injection E as <-.
    destruct (IH _ _ Er) as (R & I & F). simpl. repeat split.
    + now rewrite R.
    + rewrite Z.add_0_r. f_equal. rewrite I, <- seq_shift, map_map.
      apply map_ext. intros k. lia.
    + constructor; [|exact F]. simpl. repeat split. exact Ec.
Qed.

(** X16: the detail of a session has one presentable entry per decoded
    record of its file, in the order of the records and numbered from
    zero, each holding its record, the formatted content of it and its
    type (or [unknown]); its statistics are those of the aggregator over
    the same records, so their entry count is the number of entries. *)
Theorem getSessionDetails_transcript (H : host) (dir sessionId : string)
    (d : SessionDetail) :
  getSessionDetails H dir sessionId = Normal (Some d) ->
  let entries :=
    parseJsonlFile H (path_join H [CLAUDE_DIR H; dir; sessionId ++ ".jsonl"])
  in
  map pe_raw (sd_messages d) = entries
  /\ map pe_index (sd_messages d)
     = map Z.of_nat (seq 0 (List.length entries))
  /\ Forall (fun m =>
               formatEntryContent (pe_raw m) = Normal (pe_content m)
               /\ pe_type m = or_else (field (pe_raw m) "type") (Str "unknown")
               /\ pe_timestamp m
                  = or_else (field (pe_raw m) "timestamp")
                            (field (pe_raw m) "ts"))
            (sd_messages d)
  /\ extractSessionInfo entries dir (sessionId ++ ".jsonl")
     = Normal (sd_stats d)
  /\ entryCount (sd_stats d) = Z.of_nat (List.length (sd_messages d))
  /\ sd_sessionId d = sessionId
  /\ sd_project d = decodeProjectName dir.
Proof.
  intros E. cbv zeta. unfold getSessionDetails in E.
  destruct (negb _); [discriminate|].
  bind_inv E as messages Em. bind_inv E as stats Es.
  injection E as <-. simpl.
  destruct (format_entries_spec H _ _ _ Em) as (R & I & F).
  repeat split; try assumption.
  apply extractSessionInfo_fields in Es as (st & _ & _ & _ & _ & _ & _ & N).
  rewrite N, <- R. now rewrite length_map.
Qed.

Lemma getSessionDetails_transcript_witness :
  exists d,
    getSessionDetails demo_host "-home-u-p" "b" = Normal (Some d)
    /\ map pe_index (sd_messages d) = [0; 1]
    /\ entryCount (sd_stats d) = 2.
Proof.
  eexists. split; [vm_compute; reflexivity|]. split.
  - refine (proj1 (proj2 (getSessionDetails_transcript
                            demo_host "-home-u-p" "b" _ _))).
    vm_compute; reflexivity.
  - refine (proj1 (proj2 (proj2 (proj2 (proj2
              (getSessionDetails_transcript
                 demo_host "-home-u-p" "b" _ _)))))).
    vm_compute; reflexivity.
Defined.

Lemma prefix_cons_neq (a b : ascii) (s1 s2 : string) :
  a <> b -> prefix (String a s1) (String b s2) = false.
Proof.
  intros N. cbn [prefix]. destruct (ascii_dec a b); [contradiction|].
  reflexivity.
Qed.

Lemma replace_first_cons (pat rep : string) (c : ascii) (s : string) :
  prefix pat (String c s) = false ->
  replace_first pat rep (String c s) = String c (replace_first pat rep s).
Proof.
  intros P. cbn [replace_first]. now rewrite P.
Qed.

Lemma replace_first_suffix (name : string) :
  has_char "." name = false ->
  replace_first ".jsonl" "" (name ++ ".jsonl") = name.
Proof.
  induction name as [|c name IH]; [reflexivity|].
  intros N. cbn [has_char] in N. apply orb_false_elim in N as [C N].
  change (String c name ++ ".jsonl") with (String c (name ++ ".jsonl")).
  rewrite replace_first_cons, (IH N); [reflexivity|].
  apply prefix_cons_neq. apply Ascii.eqb_neq in C. congruence.
Qed.

(** X17: a listed session can be fetched by what the list shows.  For a
    log [name.jsonl] (no dot in [name]) that still exists, asking
    [getSessionDetails] for the [projectRaw] and [id] of its listed summary
    never answers not-found: when it returns, it returns the detail of the
    same file, whose statistics are the listed summary without the stamps
    of the scanner. *)
Theorem listed_session_is_found (H : host) (dir name : string)
    (s : SessionInfo) (r : option SessionDetail) :
  has_char "." name = false ->
  path_join H [path_join H [CLAUDE_DIR H; dir]; name ++ ".jsonl"]
  = path_join H [CLAUDE_DIR H; dir; name ++ ".jsonl"] ->
  existsSync H (path_join H [CLAUDE_DIR H; dir; name ++ ".jsonl"]) = true ->
  listed H (dir, name ++ ".jsonl") s ->
  getSessionDetails H (projectRaw s) (id s) = Normal r ->
  id s = name
  /\ projectRaw s = dir
  /\ exists d st,
       r = Some d
       /\ sd_sessionId d = name
       /\ s = attach (sd_stats d)
                     (path_join H [CLAUDE_DIR H; dir; name ++ ".jsonl"]) st.
Proof.
  intros N P X L E. unfold listed in L. cbv zeta in L. simpl in L.
  destruct L as (st & info & St & Ei & ->). simpl in *.
  rewrite P in *.
  destruct (extractSessionInfo_fields _ _ _ _ Ei)
    as (st0 & _ & I & _ & R & _).
  rewrite (replace_first_suffix name N) in I. rewrite I, R in E.
  split; [exact I|]. split; [exact R|].
  unfold getSessionDetails in E. rewrite X in E. simpl in E.
  bind_inv E as messages Em. bind_inv E as stats Es. injection E as <-.
  rewrite Ei in Es. injection Es as <-.
  eexists. exists st. repeat split.
Qed.

Lemma listed_session_is_found_witness :
  exists d st,
    listed demo_host ("-home-u-p", "b" ++ ".jsonl") demo_session_b
    /\ getSessionDetails demo_host (projectRaw demo_session_b)
                         (id demo_session_b) = Normal (Some d)
    /\ demo_session_b = attach (sd_stats d) "/logs/-home-u-p/b.jsonl" st.
Proof.
  assert (L : listed demo_host ("-home-u-p", "b" ++ ".jsonl") demo_session_b).
  { unfold listed. cbv zeta. eexists. eexists.
    split; [vm_compute; reflexivity|].
    split; vm_compute; reflexivity. }
  assert (G : exists d,
             getSessionDetails demo_host (projectRaw demo_session_b)
                               (id demo_session_b) = Normal (Some d))
    by (eexists; vm_compute; reflexivity).
  destruct G as (d & G).
  destruct (listed_session_is_found demo_host "-home-u-p" "b" demo_session_b
              (Some d) eq_refl eq_refl eq_refl L G)
    as (_ & _ & d' & st & E & _ & A).
  injection E as <-. exists d, st. split; [exact L|]. split; [exact G|].
  exact A.
Defined.

(** ** Change watcher *)

Lemma split_on_nonempty (sep : ascii) (s : string) : split_on sep s <> [].
Proof.
  destruct s as [|c s]; simpl; [discriminate|].
  destruct (Ascii.eqb c sep); [discriminate|].
  destruct (split_on sep s); discriminate.
Qed.

Lemma split_on_line (sep : ascii) (s : string) :
  has_char sep s = false -> split_on sep s = [s].
Proof.
  induction s as [|c s IH]; simpl; [reflexivity|].
  intros N. apply orb_false_elim in N as [C N]. now rewrite C, (IH N).
Qed.

Lemma split_on_app (sep : ascii) (p s : string) :
  has_char sep s = false ->
  split_on sep (p ++ String sep s) = (split_on sep p ++ [s])%list.
Proof.
  intros N. induction p as [|c p IH]; simpl.
  - now rewrite Ascii.eqb_refl, (split_on_line _ _ N).
  - destruct (Ascii.eqb c sep); [now rewrite IH|].
    rewrite IH. destruct (split_on sep p) eqn:E; [|reflexivity].
    now apply split_on_nonempty in E.
Qed.

Lemma append_assoc_string (a b c : string) : (a ++ b) ++ c = a ++ b ++ c.
Proof. induction a as [|x a IH]; simpl; [reflexivity | now rewrite IH]. Qed.

Lemma has_char_app (a : ascii) (s t : string) :
  has_char a (s ++ t) = has_char a s || has_char a t.
Proof.
  induction s as [|c s IH]; simpl; [reflexivity|].
  now rewrite IH, orb_assoc.
Qed.

Lemma substring_skip (a s : string) (n : nat) :
  substring (length a) n (a ++ s) = substring 0 n s.
Proof. induction a as [|c a IH]; simpl; [reflexivity | exact IH]. Qed.

Lemma endsWith_app (a suffix : string) : endsWith (a ++ suffix) suffix = true.
Proof.
  unfold endsWith. rewrite append_length.
  replace (length a + length suffix - length suffix)%nat with (length a)
    by lia.
  rewrite substring_skip.
  change (substring 0 (length suffix) suffix)
    with (substring0 (length suffix) suffix).
  rewrite substring0_all by lia. rewrite String.eqb_refl, andb_true_r.
  apply Nat.leb_le. lia.
Qed.

(** X18: a change of the log [name.jsonl] in the directory [dir] (neither
    name holding the separator, [name] holding no dot) is answered, when
    the aggregator returns, by a session update whose summary is the one
    the aggregator computes from the decoded file for that project and
    file name, with id [name], the decoded project path, the changed path
    and the current time, and whose latest entry is the last decoded
    record ([undefined] for none).  A path without the suffix gives no
    event, for a change and for an addition; an added log gives a bare
    refresh. *)
Theorem watcher_events (H : host) (now : Z) :
  (forall (root dir name : string) (r : option watcher_event),
      has_char "/" dir = false ->
      has_char "/" name = false ->
      has_char "." name = false ->
      let path := root ++ "/" ++ dir ++ "/" ++ name ++ ".jsonl" in
      on_change H "/" now path = Normal r ->
      exists info,
        extractSessionInfo (parseJsonlFile H path) dir (name ++ ".jsonl")
        = Normal info
        /\ r = Some (sessionUpdate (stamp info path now)
                                   (last (parseJsonlFile H path) Undef))
        /\ id info = name
        /\ project info = decodeProjectName dir
        /\ projectRaw info = dir)
  /\ (forall (sep : ascii) (path : string),
        endsWith path ".jsonl" = false ->
        on_change H sep now path = Normal None /\ on_add path = None)
  /\ (forall path : string,
        endsWith path ".jsonl" = true -> on_add path = Some refresh).
Proof.
  split; [|split].
  - intros root dir name r Nd Nn Ndot path E.
    assert (Nf : has_char "/" (name ++ ".jsonl") = false)
      by (rewrite has_char_app, Nn; reflexivity).
    assert (S : split_on "/" path
                = ((split_on "/" root ++ [dir])
                   ++ [(name ++ ".jsonl")%string])%list).
    { unfold path.
      change ("/" ++ dir ++ "/" ++ name ++ ".jsonl")
        with (String "/" (dir ++ String "/" (name ++ ".jsonl"))).
      replace (root ++ String "/" (dir ++ String "/" (name ++ ".jsonl")))
        with ((root ++ String "/" dir) ++ String "/" (name ++ ".jsonl")).
      - now rewrite (split_on_app _ _ _ Nf), (split_on_app _ _ _ Nd).
      - change (String "/" dir) with ("/" ++ dir).
        change (String "/" (dir ++ String "/" (name ++ ".jsonl")))
          with ("/" ++ dir ++ String "/" (name ++ ".jsonl")).
        now rewrite !append_assoc_string. }
    unfold on_change in E.
    assert (W : endsWith path ".jsonl" = true).
    { unfold path. rewrite <- !append_assoc_string. apply endsWith_app. }
    rewrite W, S in E. cbv zeta in E.
    rewrite last_last, removelast_last, last_last in E.
    destruct (split_on "/" root ++ [dir])%list eqn:X;
      [now apply app_eq_nil in X as [_ X]|].
    bind_inv E as info Ei. injection E as <-.
    exists info. split; [exact Ei|]. split; [reflexivity|].
    apply extractSessionInfo_fields in Ei as (st & _ & I & P & R & _).
    rewrite (replace_first_suffix name Ndot) in I. now repeat split.
  - intros sep path W. unfold on_change, on_add. now rewrite W.
  - intros path W. unfold on_add. now rewrite W.
Qed.

Lemma watcher_events_witness :
  exists r info,
    on_change demo_host "/" 99
              ("/logs" ++ "/" ++ "-home-u-p" ++ "/" ++ "b" ++ ".jsonl")
    = Normal r
    /\ r = Some (sessionUpdate
                   (stamp info
                      ("/logs" ++ "/" ++ "-home-u-p" ++ "/" ++ "b" ++ ".jsonl")
                      99)
                   (last (parseJsonlFile demo_host
                            ("/logs" ++ "/" ++ "-home-u-p" ++ "/" ++ "b"
                             ++ ".jsonl")) Undef))
    /\ id info = "b"
    /\ project info = decodeProjectName "-home-u-p".
Proof.
  assert (G : exists r,
             on_change demo_host "/" 99
               ("/logs" ++ "/" ++ "-home-u-p" ++ "/" ++ "b" ++ ".jsonl")
             = Normal r) by (eexists; vm_compute; reflexivity).
  destruct G as (r & G).
  destruct (proj1 (watcher_events demo_host 99) "/logs" "-home-u-p" "b" r
              eq_refl eq_refl eq_refl G)
    as (info & _ & Er & I & P & _).
  exists r, info. split; [exact G|]. split; [exact Er|].
  split; [exact I | exact P].
Defined.

(** ** Request helper with retries *)

Lemma retry_from_spec (H : host) (exchanges : Z -> exchange) (maxRetries : Z)
    (left : nat) :
  forall (attempt : Z) (lastError lastStatusCode : value)
         (effects : list effect) (result : retry_result),
    Z.of_nat left = maxRetries - attempt + 1 ->
    (0 < left)%nat ->
    retry_from H exchanges maxRetries attempt left lastError lastStatusCode
    = (effects, result) ->
    exists k : nat,
      attempt + Z.of_nat k <= maxRetries
      /\ effects = effects_upto attempt k
      /\ (forall j : nat,
            (j < k)%nat ->
            exists error,
              settle H (exchanges (attempt + Z.of_nat j)) = Rejected error
              /\ isRetryableError error
                   (or_else (field error "statusCode") Null) = true)
      /\ ((exists value,
             result = Returned value
             /\ settle H (exchanges (attempt + Z.of_nat k)) = Resolved value)
          \/ (exists error,
                settle H (exchanges (attempt + Z.of_nat k)) = Rejected error
                /\ result
                   = Failed (failure_message maxRetries error
                               (or_else (field error "statusCode") Null))
                /\ (attempt + Z.of_nat k = maxRetries
                    \/ isRetryableError error
                         (or_else (field error "statusCode") Null) = false))).
Proof.
  induction left as [|left IH]; intros attempt lastError lastStatusCode
    effects result Inv Pos E; [lia|].
  cbn [retry_from] in E.
  destruct (settle H (exchanges attempt)) as [value|error] eqn:St.
  - injection E as <- <-. exists 0%nat. rewrite Z.add_0_r.
    repeat split; [lia | intros j J; lia |].
    left. now exists value.
  - cbv zeta in E.
    destruct (attempt <? maxRetries) eqn:Lt; simpl in E.
    + destruct (isRetryableError error (or_else (field error "statusCode") Null))
        eqn:R.
      * destruct (retry_from H exchanges maxRetries (attempt + 1) left error
                    (or_else (field error "statusCode") Null))
          as [effects' result'] eqn:E'.
        injection E as <- <-. apply Z.ltb_lt in Lt.
        assert (I1 : Z.of_nat left = maxRetries - (attempt + 1) + 1) by lia.
        assert (I2 : (0 < left)%nat) by lia.
        destruct (IH _ _ _ _ _ I1 I2 E') as (k & B & Eff & Prev & Last).
        exists (S k).
        replace (attempt + Z.of_nat (S k)) with (attempt + 1 + Z.of_nat k)
          by lia.
        repeat split; [lia | now rewrite Eff | | exact Last].
        intros [|j] J.
        -- rewrite Z.add_0_r. now exists error.
        -- replace (attempt + Z.of_nat (S j))
             with (attempt + 1 + Z.of_nat j) by lia.
           apply Prev. lia.
      * injection E as <- <-. exists 0%nat. rewrite Z.add_0_r.
        repeat split; [lia | intros j J; lia |].
        right. exists error. repeat split; [exact St | now right].
    + injection E as <- <-. exists 0%nat. rewrite Z.add_0_r.
      apply Z.ltb_ge in Lt.
      repeat split; [lia | intros j J; lia |].
      right. exists error. repeat split; [exact St | left; lia].
Qed.

(** X19: a run of the request helper makes its requests one after the
    other, numbered from 1, at most [maxRetries] of them, and sleeps once
    between two requests and never after the last.  Every request but the
    last was rejected with a retryable error; the last one either
    resolved, and its result is returned, or was rejected, and the run
    fails because the error is not retryable or the attempts are used up.
    With [maxRetries] below 1 no request is made and the run fails. *)
Theorem makeRequestWithRetry_run (H : host) (exchanges : Z -> exchange)
    (maxRetries : Z) (effects : list effect) (result : retry_result) :
  makeRequestWithRetry H exchanges maxRetries = (effects, result) ->
  (maxRetries < 1 ->
   effects = [] /\ result = Failed (failure_message maxRetries Null Null))
  /\ (1 <= maxRetries ->
      exists k : nat,
        1 + Z.of_nat k <= maxRetries
        /\ effects = effects_upto 1 k
        /\ (forall j : nat,
              (j < k)%nat ->
              exists error,
                settle H (exchanges (1 + Z.of_nat j)) = Rejected error
                /\ isRetryableError error
                     (or_else (field error "statusCode") Null) = true)
        /\ ((exists value,
               result = Returned value
               /\ settle H (exchanges (1 + Z.of_nat k)) = Resolved value)
            \/ (exists error,
                  settle H (exchanges (1 + Z.of_nat k)) = Rejected error
                  /\ result
                     = Failed (failure_message maxRetries error
                                 (or_else (field error "statusCode") Null))
                  /\ (1 + Z.of_nat k = maxRetries
                      \/ isRetryableError error
                           (or_else (field error "statusCode") Null)
                         = false)))).
Proof.
  unfold makeRequestWithRetry. intros E. split.
  - intros Lt. destruct (Z.to_nat maxRetries) eqn:N; [|lia].
    simpl in E. now injection E as <- <-.
  - intros Ge.
    apply (retry_from_spec H exchanges maxRetries (Z.to_nat maxRetries) 1
             Null Null); [lia | lia | exact E].
Qed.

Lemma makeRequestWithRetry_run_witness :
  makeRequestWithRetry (host_of "/" [] [Obj []]) flaky_server 5
  = ([Request 1; Sleep 1; Request 2; Sleep 2; Request 3],
     Returned (Obj [("statusCode", Num 200); ("data", Obj []);
                    ("headers", Obj [])]))
  /\ exists k : nat,
       [Request 1; Sleep 1; Request 2; Sleep 2; Request 3]
       = effects_upto 1 k.
Proof.
  assert (E : makeRequestWithRetry (host_of "/" [] [Obj []]) flaky_server 5
              = ([Request 1; Sleep 1; Request 2; Sleep 2; Request 3],
                 Returned (Obj [("statusCode", Num 200); ("data", Obj []);
                                ("headers", Obj [])])))
    by (vm_compute; reflexivity).
  split; [exact E|].
  assert (G : 1 <= 5) by lia.
  destruct (proj2 (makeRequestWithRetry_run (host_of "/" [] [Obj []])
                     flaky_server 5 _ _ E) G)
    as (k & _ & Ek & _).
  now exists k.
Defined.

Lemma isRetryableError_status (statusCode : Z) (error : value) :
  field error "code" = Undef ->
  isRetryableError error (or_else (Num statusCode) Null)
  = existsb (Z.eqb statusCode) [500; 502; 503; 504; 530; 408; 429].
Proof.
  intros C. unfold isRetryableError. rewrite C. simpl is_lit.
  rewrite andb_false_r.
  destruct statusCode as [|p|p]; [reflexivity| |reflexivity].
  unfold or_else, RETRYABLE_STATUS_CODES.
  cbn [truthy Z.eqb negb andb existsb SameValueZero].
  rewrite !(Pos.eqb_sym p). now destruct (_ || _).
Qed.

(** X20: how the first answer decides a run that may retry.  A response
    with a status from 200 to 299 ends the run with one request and is
    returned with its body parsed as JSON, or as the raw text when it does
    not parse; a response with any other status outside the retryable
    ones (500, 502, 503, 504, 530, 408, 429) ends it with one request and
    a failure, however many attempts are allowed. *)
Theorem first_response_decides (H : host) (exchanges : Z -> exchange)
    (maxRetries statusCode : Z) (responseData : string) (headers : value) :
  1 <= maxRetries ->
  exchanges 1 = Response statusCode responseData headers ->
  (200 <= statusCode < 300 ->
   makeRequestWithRetry H exchanges maxRetries
   = ([Request 1],
      Returned (Obj [("statusCode", Num statusCode);
                     ("data", match JSON_parse H responseData with
                              | Some parsed => parsed
                              | None => Str responseData
                              end);
                     ("headers", headers)])))
  /\ (~ 200 <= statusCode < 300 ->
      existsb (Z.eqb statusCode) [500; 502; 503; 504; 530; 408; 429] = false ->
      exists message,
        makeRequestWithRetry H exchanges maxRetries
        = ([Request 1], Failed message)).
Proof.
  intros Ge X. unfold makeRequestWithRetry.
  destruct (Z.to_nat maxRetries) as [|left] eqn:N; [lia|].
  cbn [retry_from]. rewrite X. split.
  - intros R. unfold settle.
    replace ((200 <=? statusCode) && (statusCode <? 300)) with true;
      [reflexivity|].
    symmetry. apply andb_true_intro. split; [apply Z.leb_le | apply Z.ltb_lt];
      lia.
  - intros NR NS. unfold settle.
    replace ((200 <=? statusCode) && (statusCode <? 300)) with false.
    + cbv zeta.
      set (error := Obj [("statusCode", Num statusCode);
                         ("message",
                          Str ("Request failed with status code "
                               ++ ToString (Num statusCode)));
                         ("response", Str responseData)]).
      assert (F : field error "statusCode" = Num statusCode) by reflexivity.
      assert (C : field error "code" = Undef) by reflexivity.
      rewrite F, (isRetryableError_status statusCode error C), NS,
        andb_false_r.
      now eexists.
    + symmetry. apply andb_false_iff.
      destruct (Z.le_gt_cases 200 statusCode) as [L|L].
      * right. apply Z.ltb_ge. lia.
      * left. apply Z.leb_gt. lia.
Qed.

Lemma first_response_decides_witness :
  exists message,
    makeRequestWithRetry (host_of "/" [] [])
      (fun _ => Response 404 "no" (Obj [])) 5
    = ([Request 1], Failed message).
Proof.
  assert (G : 1 <= 5) by lia.
  apply (proj2 (first_response_decides (host_of "/" [] [])
                  (fun _ => Response 404 "no" (Obj [])) 5 404 "no" (Obj [])
                  G eq_refl)).
  - lia.
  - reflexivity.
Defined.

(** ** One log on which the aggregator raises *)

Lemma Forall2_In_left {A B : Type} (R : A -> B -> Prop) (l1 : list A)
    (l2 : list B) (x : A) :
  Forall2 R l1 l2 -> In x l1 -> exists y, In y l2 /\ R x y.
Proof.
  induction 1 as [|a b l1 l2 Rab _ IH]; simpl; [contradiction|].
  intros [<-|I].
  - exists b. split; [now left | exact Rab].
  - destruct (IH I) as (y & Iy & Ry). exists y. split; [now right | exact Ry].
Qed.

(** X21: the scan does not isolate a log the aggregator raises on.  When
    the aggregator raises on the records of one [.jsonl] file of one
    project directory (a [null] content block does that), [getAllSessions]
    raises, and no session of any project is listed. *)
Theorem one_raising_log_fails_the_scan (H : host) (projects : list string)
    (dir file : string) :
  existsSync H (CLAUDE_DIR H) = true ->
  readdirSync H (CLAUDE_DIR H) = Some projects ->
  In (dir, file) (session_files H projects) ->
  extractSessionInfo
    (parseJsonlFile H (path_join H [path_join H [CLAUDE_DIR H; dir]; file]))
    dir file = Throw ->
  getAllSessions H = Throw.
Proof.
  intros X R I T. destruct (getAllSessions H) as [sessions|] eqn:G;
    [|reflexivity].
  destruct (scan_lists_session_files H sessions G X)
    as (projects' & scanned & R' & F & _).
  rewrite R in R'. injection R' as <-.
  destruct (Forall2_In_left _ _ _ _ F I) as (s & _ & L).
  unfold listed in L. cbv zeta in L. simpl in L.
  destruct L as (st & info & _ & E & _). rewrite T in E. discriminate E.
Qed.

Lemma one_raising_log_fails_the_scan_witness :
  getAllSessions mixed_host = Throw
  /\ extractSessionInfo (parseJsonlFile mixed_host "/logs/-p/good.jsonl")
                        "-p" "good.jsonl" <> Throw.
Proof.
  split; [|vm_compute; discriminate].
  apply (one_raising_log_fails_the_scan mixed_host ["-p"] "-p" "bad.jsonl").
  - reflexivity.
  - reflexivity.
  - vm_compute. right. now left.
  - vm_compute; reflexivity.
Defined.
